(** * The 1D heat-equation solver of [heat_equation.py]

    A shallow embedding of the class [HeatEquationSolver]: construction
    from an already loaded configuration dictionary ([__init__] after
    [_load_config]), [_initialize_grid] and [solve].

    Python floats are kept behind the interface [Arith]: the solver is
    written once over that interface, and every structural theorem holds for
    every instance of it. Two instances are given: [binary64], the IEEE 754
    doubles CPython computes with, and [rational], exact arithmetic. *)

From Stdlib Require Import ZArith QArith Lia Lqa PrimFloat SpecFloat FloatOps.
From stdpp Require Import base strings gmap list pretty.

Set Warnings "-inexact-float".

Local Open Scope Z_scope.

(** ** Exceptions and results *)

(** The exceptions the solver can raise. *)
Inductive exn : Type :=
  | KeyError (key : string)
  | TypeError
  | ZeroDivisionError
  | OverflowError
  | IndexError.

Inductive result (A : Type) : Type :=
  | Ok (a : A)
  | Raise (e : exn).

Arguments Ok {A} a.
Arguments Raise {A} e.

(** Sequencing: the first exception raised ends the computation. *)
#[global] Instance result_ret : MRet result := λ A a, Ok a.

#[global] Instance result_bind : MBind result := λ A B k m,
  match m with
  | Ok a => k a
  | Raise e => Raise e
  end.

(** [for x in xs: acc = body(acc, x)], stopping at the first exception. *)
Fixpoint for_each {A B : Type} (body : B → A → result B) (xs : list A) (acc : B)
  : result B :=
  match xs with
  | [] => Ok acc
  | x :: xs' => acc' ← body acc x; for_each body xs' acc'
  end.

(** [range(lo, hi)] *)
Definition range (lo hi : Z) : list Z :=
  map (λ k : nat, lo + Z.of_nat k) (seq 0 (Z.to_nat (hi - lo))).

(** ** Float arithmetic, as the interpreter provides it *)

Class Arith (F : Type) : Type := {
  f0 : F;                          (* the literal 0.0 *)
  f1 : F;                          (* the literal 1.0 *)
  f2 : F;                          (* the int 2 converted in 2*x *)
  fhalf : F;                       (* the literal 0.5 *)
  fadd : F → F → F;                (* x + y, never raises *)
  fsub : F → F → F;                (* x - y, never raises *)
  fmul : F → F → F;                (* x * y, never raises *)
  fdiv : F → F → F;                (* x / y for a divisor that is not zero *)
  feq0 : F → bool;                 (* x == 0.0 *)
  fgt : F → F → bool;              (* x > y *)
  float_pow2 : F → result F;       (* x ** 2, OverflowError on overflow *)
  float_of_int : Z → result F;     (* float(n), OverflowError when too large *)
  int_truediv : Z → Z → result F   (* a / b on ints with b != 0 *)
}.

(** Values of a JSON configuration: numbers and strings. *)
Inductive value (F : Type) : Type :=
  | VInt (n : Z)
  | VFloat (x : F)
  | VStr (s : string).

Arguments VInt {F} n.
Arguments VFloat {F} x.
Arguments VStr {F} s.

(** Events written to standard output. *)
Inductive event (F : Type) : Type :=
  | StabilityWarning (r : F).

Arguments StabilityWarning {F} r.

Section Solver.

Context {F : Type} `{Arith F}.

(** ** Python operations used by the solver *)

(** [d[key]] *)
Definition dict_getitem (d : gmap string (value F)) (key : string)
  : result (value F) :=
  match d !! key with
  | Some v => Ok v
  | None => Raise (KeyError key)
  end.

Definition as_float (v : value F) : result F :=
  match v with
  | VInt n => float_of_int n
  | VFloat x => Ok x
  | VStr _ => Raise TypeError
  end.

(** [a - 1] *)
Definition py_sub1 (a : value F) : result (value F) :=
  match a with
  | VInt n => Ok (VInt (n - 1))
  | VFloat x => Ok (VFloat (fsub x f1))
  | VStr _ => Raise TypeError
  end.

(** [x / y] on floats *)
Definition float_truediv (x y : F) : result F :=
  if feq0 y then Raise ZeroDivisionError else Ok (fdiv x y).

(** [a / b]: true division, always a float *)
Definition py_truediv (a b : value F) : result F :=
  match a, b with
  | VStr _, _ | _, VStr _ => Raise TypeError
  | VInt m, VInt n => if n =? 0 then Raise ZeroDivisionError else int_truediv m n
  | _, _ => x ← as_float a; y ← as_float b; float_truediv x y
  end.

(** [a * x] for a float [x] *)
Definition py_mul_float (a : value F) (x : F) : result F :=
  match a with
  | VInt n => y ← float_of_int n; Ok (fmul y x)
  | VFloat y => Ok (fmul y x)
  | VStr _ => Raise TypeError
  end.

(** [[x] * n] *)
Definition list_repeat (x : F) (n : value F) : result (list F) :=
  match n with
  | VInt k => Ok (replicate (Z.to_nat k) x)
  | _ => Raise TypeError
  end.

(** The int an index or a [range] bound must be. *)
Definition as_index (v : value F) : result Z :=
  match v with
  | VInt n => Ok n
  | _ => Raise TypeError
  end.

(** Position of index [i] in a list of length [n]: negative indices count
    from the end. *)
Definition normalize_index (n : nat) (i : Z) : option nat :=
  let j := if i <? 0 then i + Z.of_nat n else i in
  if (0 <=? j) && (j <? Z.of_nat n) then Some (Z.to_nat j) else None.

(** [l[i]] *)
Definition list_getitem (l : list F) (i : Z) : result F :=
  match normalize_index (length l) i with
  | Some j =>
      match l !! j with
      | Some x => Ok x
      | None => Raise IndexError
      end
  | None => Raise IndexError
  end.

(** [l[i] = x] *)
Definition list_setitem (l : list F) (i : Z) (x : F) : result (list F) :=
  match normalize_index (length l) i with
  | Some j => Ok (<[j := x]> l)
  | None => Raise IndexError
  end.

(** ** The solver *)

Record HeatEquationSolver : Type := {
  config : gmap string (value F);
  u : list F;
  dx : F;
  dt : F
}.

Definition set_u (s : HeatEquationSolver) (u' : list F) : HeatEquationSolver :=
  {| config := config s; u := u'; dx := dx s; dt := dt s |}.

(** [_initialize_grid] *)
Definition initialize_grid (s : HeatEquationSolver) : result HeatEquationSolver :=
  length ← dict_getitem (config s) "length";
  nx ← dict_getitem (config s) "num_points_x";
  total_time ← dict_getitem (config s) "total_time";
  nt ← dict_getitem (config s) "num_points_t";
  nx1 ← py_sub1 nx;
  dx' ← py_truediv length nx1;
  dt' ← py_truediv total_time nt;
  zeros ← list_repeat f0 nx;
  n ← as_index nx;
  u' ← list_setitem zeros (n / 2) f1;
  Ok {| config := config s; u := u'; dx := dx'; dt := dt' |}.

(** [__init__], given the dictionary [_load_config] returned. *)
Definition init (cfg : gmap string (value F)) : result HeatEquationSolver :=
  initialize_grid {| config := cfg; u := []; dx := f0; dt := f0 |}.

(** [alpha * self.dt / (self.dx ** 2)] *)
Definition diffusion_number (alpha : value F) (dt' dx' : F) : result F :=
  a ← py_mul_float alpha dt';
  d ← float_pow2 dx';
  float_truediv a d.

(** The assignment
    [u_new[i] = self.u[i] + r * (self.u[i+1] - 2*self.u[i] + self.u[i-1])]. *)
Definition update_point (r : F) (u0 u_new : list F) (i : Z) : result (list F) :=
  a ← list_getitem u0 i;
  b ← list_getitem u0 (i + 1);
  c ← list_getitem u0 i;
  d ← list_getitem u0 (i - 1);
  list_setitem u_new i (fadd a (fmul r (fadd (fsub b (fmul f2 c)) d))).

(** One pass of the inner loop, started from the copy [self.u[:]]. *)
Definition step (r : F) (nx : value F) (u0 : list F) : result (list F) :=
  n1 ← py_sub1 nx;
  hi ← as_index n1;
  for_each (update_point r u0) (range 1 hi) u0.

(** [n] iterations of the loop over time steps. *)
Fixpoint time_loop (r : F) (nx : value F) (n : nat) (s : HeatEquationSolver)
    (results : list (list F)) : result (list (list F) * HeatEquationSolver) :=
  match n with
  | O => Ok (results, s)
  | S n' =>
      u_new ← step r nx (u s);
      let s' := set_u s u_new in
      time_loop r nx n' s' (results ++ [u s'])
  end.

(** The printed output of the stability check. *)
Definition stability_check (r : F) : list (event F) :=
  if fgt r fhalf then [StabilityWarning r] else [].

(** [solve]: the returned history, what was printed, and the solver
    afterwards. *)
Definition solve (s : HeatEquationSolver)
  : result (list (list F) * list (event F) * HeatEquationSolver) :=
  alpha ← dict_getitem (config s) "alpha";
  nx ← dict_getitem (config s) "num_points_x";
  nt ← dict_getitem (config s) "num_points_t";
  r ← diffusion_number alpha (dt s) (dx s);
  let out := stability_check r in
  n ← as_index nt;
  '(results, s') ← time_loop r nx (Z.to_nat n) s [u s];
  Ok (results, out, s').

End Solver.

Arguments HeatEquationSolver F : clear implicits.

(** ** IEEE 754 doubles *)

(** An int as an exact (unrounded) binary number. *)
Definition Z2SF (z : Z) : spec_float :=
  match z with
  | Z0 => S754_zero false
  | Zpos p => S754_finite false p 0
  | Zneg p => S754_finite true p 0
  end.

(** A float result that is reported as [OverflowError] when infinite. *)
Definition checked (x : float) : result float :=
  if is_infinity x then Raise OverflowError else Ok x.

(** [float.__pow__(x, 2)]: NaN, the infinities and zero are answered
    directly, any other base goes through the C library's [pow], taken here
    as the correctly rounded square, and an infinite result is an
    [OverflowError]. *)
Definition binary64_pow2 (x : float) : result float :=
  if is_nan x then Ok x
  else if is_infinity x then Ok infinity
  else if PrimFloat.eqb x 0 then Ok 0%float
  else checked (PrimFloat.mul (abs x) (abs x)).

#[global] Instance binary64 : Arith float := {
  f0 := 0%float;
  f1 := 1%float;
  f2 := 2%float;
  fhalf := 0.5%float;
  fadd := PrimFloat.add;
  fsub := PrimFloat.sub;
  fmul := PrimFloat.mul;
  fdiv := PrimFloat.div;
  feq0 := λ x, PrimFloat.eqb x 0;
  fgt := λ x y, PrimFloat.ltb y x;
  float_pow2 := binary64_pow2;
  float_of_int := λ n, checked (SF2Prim (binary_normalize prec emax n 0 false));
  int_truediv := λ a b, checked (SF2Prim (SFdiv prec emax (Z2SF a) (Z2SF b)))
}.

(** ** Exact arithmetic *)

#[global] Instance rational : Arith Q := {
  f0 := 0%Q;
  f1 := 1%Q;
  f2 := 2%Q;
  fhalf := (1 # 2)%Q;
  fadd := Qplus;
  fsub := Qminus;
  fmul := Qmult;
  fdiv := Qdiv;
  feq0 := λ x, Qeq_bool x 0;
  fgt := λ x y, negb (Qle_bool x y);
  float_pow2 := λ x, Ok (x * x)%Q;
  float_of_int := λ n, Ok (inject_Z n);
  int_truediv := λ a b, Ok (inject_Z a / inject_Z b)%Q
}.

(** ** The configurations of the test suite and of the specification *)

(** The configuration written by the unit tests' [setUp]. *)
Definition test_config : gmap string (value float) :=
  <["length" := VFloat 1%float]>
  (<["total_time" := VFloat 0.01%float]>
  (<["alpha" := VFloat 0.01%float]>
  (<["num_points_x" := VInt 10]>
  (<["num_points_t" := VInt 10]>
  (<["output_file" := VStr "test_output.csv"]> ∅))))).

(** A configuration far beyond the stability threshold. *)
Definition unstable_config : gmap string (value float) :=
  <["length" := VFloat 1%float]>
  (<["total_time" := VFloat 1%float]>
  (<["alpha" := VFloat 1%float]>
  (<["num_points_x" := VInt 10]>
  (<["num_points_t" := VInt 1]> ∅)))).

(** ** Well-formed configurations *)

Section Validity.

Context {F : Type} `{Arith F}.

(** [v > 0] for a number of the configuration. *)
Definition is_positive (v : value F) : bool :=
  match v with
  | VInt n => 0 <? n
  | VFloat x => fgt x f0
  | VStr _ => false
  end.

(** [v] is an int with [v >= k]. *)
Definition int_at_least (k : Z) (v : value F) : bool :=
  match v with
  | VInt n => k <=? n
  | _ => false
  end.

(** length > 0, num_points_x >= 3, total_time > 0, num_points_t >= 1 and
    alpha > 0, all five present. *)
Definition valid_config (cfg : gmap string (value F)) : bool :=
  match cfg !! "length", cfg !! "num_points_x", cfg !! "total_time",
        cfg !! "num_points_t", cfg !! "alpha" with
  | Some len, Some nx, Some total_time, Some nt, Some alpha =>
      is_positive len && int_at_least 3 nx && is_positive total_time
      && int_at_least 1 nt && is_positive alpha
  | _, _, _, _, _ => false
  end.

(** The fields the constructor reads, in the order it reads them. *)
Definition grid_fields : list string :=
  ["length"; "num_points_x"; "total_time"; "num_points_t"].

(** The fields [solve] reads. *)
Definition solve_fields : list string :=
  ["alpha"; "num_points_x"; "num_points_t"].

(** The solver [s] holding the dictionary [cfg] instead of its own. *)
Definition with_config (cfg : gmap string (value F)) (s : HeatEquationSolver F)
  : HeatEquationSolver F :=
  {| config := cfg; u := u s; dx := dx s; dt := dt s |}.

Definition is_missing (cfg : gmap string (value F)) (key : string) : bool :=
  match cfg !! key with
  | Some _ => false
  | None => true
  end.

End Validity.

(** ** The update written as a function of the previous field *)

Section Stencil.

Context {F : Type} `{Arith F}.

Definition entry (l : list F) (k : nat) : F := default f0 (l !! k).

(** [field[k] + r * (field[k+1] - 2*field[k] + field[k-1])] *)
Definition stencil (r : F) (field : list F) (k : nat) : F :=
  fadd (entry field k)
    (fmul r (fadd (fsub (entry field (k + 1)) (fmul f2 (entry field k)))
                  (entry field (k - 1)))).

(** The field after one time step that updates the indices [1 .. m]. *)
Definition relax (r : F) (m : nat) (field : list F) : list F :=
  foldl (λ acc k, <[k := stencil r field k]> acc) field (seq 1 m).

(** The field after [n] time steps. *)
Definition field_after (r : F) (m : nat) (field : list F) (n : nat) : list F :=
  Nat.iter n (relax r m) field.

(** The snapshots appended by [n] time steps. *)
Definition snapshots (r : F) (m : nat) (field : list F) (n : nat) : list (list F) :=
  map (λ k, field_after r m field (S k)) (seq 0 n).

(** [max(l)]: the first entry no later entry is greater than. *)
Definition list_max (l : list F) : option F :=
  match l with
  | [] => None
  | x :: l' => Some (foldl (λ m y, if fgt y m then y else m) x l')
  end.

End Stencil.

(** ** Inputs the theorems are exercised on *)

(** The solver of a successful construction. *)
Definition constructed {F : Type} `{Arith F} (cfg : gmap string (value F))
  : HeatEquationSolver F :=
  match init cfg with
  | Ok s => s
  | Raise _ => {| config := cfg; u := []; dx := f0; dt := f0 |}
  end.

(** The history, the output and the solver after a successful [solve]. *)
Definition solved {F : Type} `{Arith F} (s : HeatEquationSolver F)
  : list (list F) * list (event F) * HeatEquationSolver F :=
  match solve s with
  | Ok res => res
  | Raise _ => ([], [], s)
  end.

Definition test_solver : HeatEquationSolver float := constructed test_config.
Definition test_history : list (list float) := (solved test_solver).1.1.
Definition test_solver_after : HeatEquationSolver float := (solved test_solver).2.

Definition unstable_solver : HeatEquationSolver float := constructed unstable_config.

(** A configuration without alpha, otherwise the one of the tests. *)
Definition test_config_without_alpha : gmap string (value float) :=
  delete "alpha" test_config.

(** A valid configuration whose [dx ** 2] underflows to [0.0]. *)
Definition underflow_config : gmap string (value float) :=
  <["length" := VFloat 1e-200%float]>
  (<["total_time" := VFloat 1%float]>
  (<["alpha" := VFloat 1%float]>
  (<["num_points_x" := VInt 3]>
  (<["num_points_t" := VInt 1]> ∅)))).

(** A valid configuration whose [dx ** 2] overflows. *)
Definition overflow_config : gmap string (value float) :=
  <["length" := VFloat 1e200%float]> underflow_config.

(** A stable configuration in exact arithmetic: dx = 1/4, dt = 1/4 and
    r = 2/5. *)
Definition exact_config : gmap string (value Q) :=
  <["length" := VInt 1]>
  (<["total_time" := VInt 1]>
  (<["alpha" := VFloat (1 # 10)%Q]>
  (<["num_points_x" := VInt 5]>
  (<["num_points_t" := VInt 4]> ∅)))).

Definition exact_solver : HeatEquationSolver Q := constructed exact_config.
Definition exact_history : list (list Q) := (solved exact_solver).1.1.

(** The check of the maximum principle on one history: no entry of a
    snapshot is greater than the maximum of the snapshot before it. *)
Definition never_exceeds {F : Type} `{Arith F} (prev next : list F) : bool :=
  match list_max prev with
  | Some M => forallb (λ x, negb (fgt x M)) next
  | None => true
  end.

Fixpoint non_amplifying {F : Type} `{Arith F} (h : list (list F)) : bool :=
  match h with
  | prev :: ((next :: _) as h') => never_exceeds prev next && non_amplifying h'
  | _ => true
  end.

(** ** Writing the results *)

(** A cell handed to the csv writer: text, or a float it formats. *)
Inductive cell (F : Type) : Type :=
  | CText (s : string)
  | CFloat (x : F).

Arguments CText {F} s.
Arguments CFloat {F} x.

(** The file system as [save_results] meets it: csv files by path and the
    streams behind open file descriptors, both as the rows written to them,
    and the paths and descriptors on which [open(.., 'w')] fails with an
    OSError. Writes to a file that was opened are taken to succeed. *)
Record file_system (F : Type) : Type := {
  files : gmap string (list (list (cell F)));
  streams : gmap Z (list (list (cell F)));
  refused_path : string → bool;
  refused_descriptor : Z → bool
}.

Arguments files {F} _.
Arguments streams {F} _.
Arguments refused_path {F} _.
Arguments refused_descriptor {F} _.

(** How a call of [save_results] ends. *)
Inductive save_outcome : Type :=
  | Saved                (* printed "Results successfully saved to ..." *)
  | WriteError           (* the IOError was caught and printed *)
  | Uncaught (e : exn)   (* an exception the handler does not catch *)
  | UncaughtValueError.  (* [open] on a null character or a negative descriptor *)

Fixpoint has_nul (path : string) : bool :=
  match path with
  | EmptyString => false
  | String c path' => Ascii.eqb c Ascii.zero || has_nul path'
  end.

Section Saving.

Context {F : Type} `{Arith F}.

(** [[f"x_{i}" for i in range(nx)]] *)
Definition header (nx : Z) : list (cell F) :=
  map (λ i : Z, CText ("x_" +:+ pretty i)) (range 0 nx).

(** The rows [writer.writerow(header)] and [writer.writerows(results)]
    write. *)
Definition csv_rows (nx : Z) (results : list (list F)) : list (list (cell F)) :=
  header nx :: map (map CFloat) results.

(** [self.config.get('output_file', 'output.csv')] *)
Definition output_file (cfg : gmap string (value F)) : value F :=
  default (VStr "output.csv") (cfg !! "output_file").

(** [save_results]: the file system afterwards and how the call ended. A
    path is opened for writing, which empties the file, before the header
    is built. An int names a file descriptor, which is written at its
    position; [open] takes it as a C int and refuses a negative one with a
    ValueError and one out of range with a TypeError. *)
Definition save_results (s : HeatEquationSolver F) (results : list (list F))
    (fs : file_system F) : file_system F * save_outcome :=
  let columns := nx ← dict_getitem (config s) "num_points_x"; as_index nx in
  match output_file (config s) with
  | VStr path =>
      if has_nul path then (fs, UncaughtValueError)
      else if refused_path fs path then (fs, WriteError)
      else
        let write rows :=
          {| files := <[path := rows]> (files fs); streams := streams fs;
             refused_path := refused_path fs;
             refused_descriptor := refused_descriptor fs |} in
        match columns with
        | Ok nx => (write (csv_rows nx results), Saved)
        | Raise e => (write [], Uncaught e)
        end
  | VInt fd =>
      if (fd <? - 2 ^ 31) || (2 ^ 31 <=? fd) then (fs, Uncaught TypeError)
      else if fd <? 0 then (fs, UncaughtValueError)
      else if refused_descriptor fs fd then (fs, WriteError)
      else
        match columns with
        | Ok nx =>
            ({| files := files fs;
                streams := <[fd := default [] (streams fs !! fd)
                                   ++ csv_rows nx results]> (streams fs);
                refused_path := refused_path fs;
                refused_descriptor := refused_descriptor fs |}, Saved)
        | Raise e => (fs, Uncaught e)
        end
  | VFloat _ => (fs, Uncaught TypeError)
  end.

End Saving.

(** ** Loading the configuration, and the script *)

(** What [json.load] returns: an object, here a dictionary of numbers and
    strings, or another JSON value. *)
Inductive loaded (F : Type) : Type :=
  | JObject (cfg : gmap string (value F))
  | JOther.

Arguments JObject {F} cfg.
Arguments JOther {F}.

(** What opening a file and parsing it as JSON comes to. *)
Inductive read_result (F : Type) : Type :=
  | Parsed (v : loaded F)
  | Malformed       (* json.JSONDecodeError *)
  | Unreadable.     (* an OSError of [open] *)

Arguments Parsed {F} v.
Arguments Malformed {F}.
Arguments Unreadable {F}.

(** The files [_load_config] can meet: which paths exist, and what reading
    one as JSON gives. *)
Record config_files (F : Type) : Type := {
  path_exists : string → bool;
  read_json : string → read_result F
}.

Arguments path_exists {F} _.
Arguments read_json {F} _.

(** The exceptions of the constructor called on a path. *)
Inductive load_exn : Type :=
  | FileNotFoundError
  | JSONDecodeError
  | OSError
  | FromGrid (e : exn).

(** How the script ends; it catches every exception. *)
Inductive script_outcome : Type :=
  | ScriptSaved          (* printed "Results successfully saved to ..." *)
  | ScriptWriteError     (* printed "Error writing to file ..." *)
  | ScriptError.         (* printed "An error occurred: ..." *)

Section Script.

Context {F : Type} `{Arith F}.

(** [_load_config] *)
Definition load_config (cf : config_files F) (config_path : string)
  : loaded F + load_exn :=
  if negb (path_exists cf config_path) then inr FileNotFoundError
  else
    match read_json cf config_path with
    | Parsed v => inl v
    | Malformed => inr JSONDecodeError
    | Unreadable => inr OSError
    end.

(** [HeatEquationSolver(config_path)]: on a JSON value that is not an
    object, the first subscript of [_initialize_grid] is a TypeError. *)
Definition new_solver (cf : config_files F) (config_path : string)
  : HeatEquationSolver F + load_exn :=
  match load_config cf config_path with
  | inl (JObject cfg) =>
      match init cfg with
      | Ok s => inl s
      | Raise e => inr (FromGrid e)
      end
  | inl JOther => inr (FromGrid TypeError)
  | inr e => inr e
  end.

(** The script under [if __name__ == "__main__"]: the file system it
    leaves and how it ends. *)
Definition main (cf : config_files F) (fs : file_system F)
  : file_system F * script_outcome :=
  match new_solver cf "config.json" with
  | inr _ => (fs, ScriptError)
  | inl solver =>
      match solve solver with
      | Raise _ => (fs, ScriptError)
      | Ok (results, _, solver') =>
          match save_results solver' results fs with
          | (fs', Saved) => (fs', ScriptSaved)
          | (fs', WriteError) => (fs', ScriptWriteError)
          | (fs', Uncaught _) => (fs', ScriptError)
          | (fs', UncaughtValueError) => (fs', ScriptError)
          end
      end
  end.

End Script.

(** The directory of the tests: "config.json" holds the test
    configuration. *)
Definition test_directory : config_files float :=
  {| path_exists := String.eqb "config.json";
     read_json := λ _, Parsed (JObject test_config) |}.

(** ** Configurations at the edges *)

Section Edges.

Context {F : Type} `{Arith F}.

Definition is_number (v : value F) : bool :=
  match v with
  | VStr _ => false
  | _ => true
  end.

Definition is_int (v : value F) : bool :=
  match v with
  | VInt _ => true
  | _ => false
  end.

End Edges.

(** The test configuration with one field replaced. *)
Definition test_config_with (key : string) (v : value float)
  : gmap string (value float) :=
  <[key := v]> test_config.

(** A file system with nothing in it that refuses the paths under "/ro/". *)
Definition empty_file_system : file_system float :=
  {| files := ∅; streams := ∅;
     refused_path := String.prefix "/ro/";
     refused_descriptor := λ _, true |}.

(** ** Sequencing lemmas *)

Lemma bind_Ok {A B : Type} (m : result A) (k : A → result B) (b : B) :
  m ≫= k = Ok b → ∃ a, m = Ok a ∧ k a = Ok b.
Proof. destruct m as [a|e]; simpl; [eauto | discriminate]. Qed.

Ltac inv_bind H :=
  repeat match type of H with
  | _ ≫= _ = Ok _ =>
      let a := fresh "a" in
      let E := fresh "E" in
      apply bind_Ok in H as (a & E & H)
  end.

(** ** Indexing *)

Lemma normalize_index_nat (n k : nat) :
  (k < n)%nat → normalize_index n (Z.of_nat k) = Some k.
Proof.
  intros Hk. unfold normalize_index.
  destruct (Z.ltb_spec (Z.of_nat k) 0) as [?|_]; [lia|].
  destruct (Z.leb_spec 0 (Z.of_nat k)) as [_|?]; [|lia].
  destruct (Z.ltb_spec (Z.of_nat k) (Z.of_nat n)) as [_|?]; [|lia].
  simpl. by rewrite Nat2Z.id.
Qed.

Lemma normalize_index_Some (n : nat) (i : Z) (j : nat) :
  normalize_index n i = Some j → (j < n)%nat.
Proof.
  unfold normalize_index. case_match; [|discriminate].
  intros [= <-]. apply andb_prop in H as [H1%Z.leb_le H2%Z.ltb_lt]. lia.
Qed.

Lemma normalize_index_nonneg (n : nat) (i : Z) (j : nat) :
  0 ≤ i → normalize_index n i = Some j → j = Z.to_nat i.
Proof.
  intros Hi. unfold normalize_index.
  destruct (Z.ltb_spec i 0) as [?|_]; [lia|].
  case_match; [|discriminate]. by intros [= <-].
Qed.

Section Indexing.

Context {F : Type} `{Arith F}.

Lemma list_getitem_nat (l : list F) (k : nat) (x : F) :
  l !! k = Some x → list_getitem l (Z.of_nat k) = Ok x.
Proof.
  intros Hx. unfold list_getitem.
  rewrite normalize_index_nat by (by eapply lookup_lt_Some). by rewrite Hx.
Qed.

Lemma list_setitem_nat (l : list F) (k : nat) (x : F) :
  (k < length l)%nat → list_setitem l (Z.of_nat k) x = Ok (<[k := x]> l).
Proof. intros Hk. unfold list_setitem. by rewrite normalize_index_nat. Qed.

Lemma entry_lookup (l : list F) (k : nat) :
  (k < length l)%nat → l !! k = Some (entry l k).
Proof.
  intros Hk. unfold entry.
  destruct (lookup_lt_is_Some_2 l k Hk) as [x ->]. done.
Qed.

(** *** The inner loop *)

Lemma update_point_nat (r : F) (u0 acc : list F) (k : nat) :
  (1 ≤ k)%nat → (k + 1 < length u0)%nat → (k < length acc)%nat →
  update_point r u0 acc (Z.of_nat k) = Ok (<[k := stencil r u0 k]> acc).
Proof.
  intros H1 H2 H3. unfold update_point.
  replace (Z.of_nat k + 1) with (Z.of_nat (k + 1)) by lia.
  replace (Z.of_nat k - 1) with (Z.of_nat (k - 1)) by lia.
  rewrite (list_getitem_nat u0 k (entry u0 k)) by (apply entry_lookup; lia).
  rewrite (list_getitem_nat u0 (k + 1) (entry u0 (k + 1)))
    by (apply entry_lookup; lia).
  rewrite (list_getitem_nat u0 (k - 1) (entry u0 (k - 1)))
    by (apply entry_lookup; lia).
  simpl. by apply list_setitem_nat.
Qed.

Lemma length_foldl_insert (g : nat → F) (ks : list nat) (acc : list F) :
  length (foldl (λ acc k, <[k := g k]> acc) acc ks) = length acc.
Proof.
  revert acc. induction ks as [|k ks IH]; intros acc; simpl; [done|].
  by rewrite IH, length_insert.
Qed.

Lemma lookup_foldl_insert_in (g : nat → F) (ks : list nat) (acc : list F) (j : nat) :
  j ∈ ks → (j < length acc)%nat →
  foldl (λ acc k, <[k := g k]> acc) acc ks !! j = Some (g j).
Proof.
  revert acc. induction ks as [|k ks IH]; intros acc Hin Hj; simpl.
  - by apply elem_of_nil in Hin.
  - destruct (decide (j ∈ ks)) as [Hks|Hks].
    + apply IH; [done | by rewrite length_insert].
    + apply elem_of_cons in Hin as [->|?]; [|done].
      clear IH. revert acc Hj Hks.
      induction ks as [|k' ks IH]; intros acc Hj Hks; simpl.
      * by apply list_lookup_insert_eq.
      * apply not_elem_of_cons in Hks as [Hne Hks].
        rewrite list_insert_insert_ne by done.
        apply IH; [by rewrite length_insert | done].
Qed.

Lemma lookup_foldl_insert_notin (g : nat → F) (ks : list nat) (acc : list F) (j : nat) :
  j ∉ ks → foldl (λ acc k, <[k := g k]> acc) acc ks !! j = acc !! j.
Proof.
  revert acc. induction ks as [|k ks IH]; intros acc Hj; simpl; [done|].
  apply not_elem_of_cons in Hj as [Hne Hj].
  rewrite IH by done. by apply list_lookup_insert_ne.
Qed.

Lemma for_each_update (r : F) (u0 : list F) (ks : list nat) (acc : list F) :
  Forall (λ k, 1 ≤ k ∧ k + 1 < length u0)%nat ks →
  length acc = length u0 →
  for_each (update_point r u0) (map Z.of_nat ks) acc
  = Ok (foldl (λ acc k, <[k := stencil r u0 k]> acc) acc ks).
Proof.
  intros Hks. revert acc.
  induction Hks as [|k ks [Hk1 Hk2] _ IH]; intros acc Hlen; simpl; [done|].
  rewrite update_point_nat by lia. simpl.
  apply IH. by rewrite length_insert.
Qed.

End Indexing.

Lemma range_from_1 (hi : Z) :
  range 1 hi = map Z.of_nat (seq 1 (Z.to_nat (hi - 1))).
Proof.
  unfold range. rewrite <- seq_shift, map_map.
  apply map_ext. intros k. lia.
Qed.

Section Loops.

Context {F : Type} `{Arith F}.

(** *** One time step *)

Lemma length_relax (r : F) (m : nat) (field : list F) :
  length (relax r m field) = length field.
Proof. apply length_foldl_insert. Qed.

Lemma relax_interior (r : F) (m : nat) (field : list F) (k : nat) :
  (1 ≤ k ≤ m)%nat → (k < length field)%nat →
  relax r m field !! k = Some (stencil r field k).
Proof.
  intros Hk Hlen. unfold relax.
  apply (lookup_foldl_insert_in (stencil r field)); [|done].
  apply elem_of_seq. lia.
Qed.

Lemma relax_outside (r : F) (m : nat) (field : list F) (k : nat) :
  (k < 1 ∨ m < k)%nat → relax r m field !! k = field !! k.
Proof.
  intros Hk. unfold relax.
  apply (lookup_foldl_insert_notin (stencil r field)).
  rewrite elem_of_seq. lia.
Qed.

Lemma step_ok (r : F) (nx : Z) (field : list F) :
  length field = Z.to_nat nx →
  step r (VInt nx) field = Ok (relax r (Z.to_nat (nx - 2)) field).
Proof.
  intros Hlen. unfold step. simpl. rewrite range_from_1.
  replace (nx - 1 - 1) with (nx - 2) by lia.
  apply for_each_update; [|done].
  apply Forall_forall. intros k Hk%elem_of_seq. lia.
Qed.

(** *** The loop over time steps *)

Lemma length_field_after (r : F) (m : nat) (field : list F) (n : nat) :
  length (field_after r m field n) = length field.
Proof.
  induction n as [|n IH]; simpl; [done|]. by rewrite length_relax.
Qed.

Lemma field_after_S (r : F) (m : nat) (field : list F) (n : nat) :
  field_after r m field (S n) = relax r m (field_after r m field n).
Proof. done. Qed.

Lemma field_after_relax (r : F) (m : nat) (field : list F) (n : nat) :
  field_after r m (relax r m field) n = field_after r m field (S n).
Proof.
  induction n as [|n IH]; [done|].
  rewrite (field_after_S r m field (S n)), <- IH. done.
Qed.

Lemma snapshots_S (r : F) (m : nat) (field : list F) (n : nat) :
  snapshots r m field (S n)
  = relax r m field :: snapshots r m (relax r m field) n.
Proof.
  unfold snapshots. simpl. f_equal.
  rewrite <- seq_shift, map_map. apply map_ext. intros k.
  by rewrite field_after_relax.
Qed.

Lemma length_snapshots (r : F) (m : nat) (field : list F) (n : nat) :
  length (snapshots r m field n) = n.
Proof. unfold snapshots. by rewrite length_map, length_seq. Qed.

Lemma lookup_snapshots (r : F) (m : nat) (field : list F) (n t : nat) :
  (t < n)%nat →
  snapshots r m field n !! t = Some (field_after r m field (S t)).
Proof.
  intros Ht. unfold snapshots.
  rewrite list_lookup_fmap, lookup_seq_lt by done. done.
Qed.

Lemma set_u_u (s : HeatEquationSolver F) : set_u s (u s) = s.
Proof. by destruct s. Qed.

Lemma set_u_set_u (s : HeatEquationSolver F) (v w : list F) :
  set_u (set_u s v) w = set_u s w.
Proof. done. Qed.

Lemma time_loop_ok (r : F) (nx : Z) (n : nat) (s : HeatEquationSolver F)
    (results : list (list F)) :
  length (u s) = Z.to_nat nx →
  time_loop r (VInt nx) n s results
  = Ok (results ++ snapshots r (Z.to_nat (nx - 2)) (u s) n,
        set_u s (field_after r (Z.to_nat (nx - 2)) (u s) n)).
Proof.
  revert s results.
  induction n as [|n IH]; intros s results Hlen.
  - simpl. by rewrite app_nil_r, set_u_u.
  - cbn [time_loop]. rewrite step_ok by done. simpl.
    rewrite IH by (simpl; by rewrite length_relax).
    simpl. rewrite set_u_set_u, field_after_relax, snapshots_S.
    by rewrite <- app_assoc.
Qed.

End Loops.

Section Construction.

Context {F : Type} `{Arith F}.

Lemma dict_getitem_Ok (d : gmap string (value F)) (key : string) (v : value F) :
  dict_getitem d key = Ok v → d !! key = Some v.
Proof. unfold dict_getitem. destruct (d !! key); by intros [= ->]. Qed.

Lemma valid_config_inv (cfg : gmap string (value F)) :
  valid_config cfg = true →
  ∃ len nx total_time nt alpha,
    cfg !! "length" = Some len ∧ cfg !! "num_points_x" = Some (VInt nx) ∧
    cfg !! "total_time" = Some total_time ∧
    cfg !! "num_points_t" = Some (VInt nt) ∧ cfg !! "alpha" = Some alpha ∧
    is_positive len = true ∧ 3 ≤ nx ∧ is_positive total_time = true ∧
    1 ≤ nt ∧ is_positive alpha = true.
Proof.
  unfold valid_config. intros Hv.
  destruct (cfg !! "length") as [len|]; [|done].
  destruct (cfg !! "num_points_x") as [nx|]; [|done].
  destruct (cfg !! "total_time") as [total_time|]; [|done].
  destruct (cfg !! "num_points_t") as [nt|]; [|done].
  destruct (cfg !! "alpha") as [alpha|]; [|done].
  repeat (apply andb_prop in Hv as [Hv ?]).
  destruct nx as [nx| |]; try done. destruct nt as [nt| |]; try done.
  exists len, nx, total_time, nt, alpha. simpl in *.
  repeat split; try done; by apply Z.leb_le.
Qed.

(** What a constructed solver holds. *)
Lemma init_inv (cfg : gmap string (value F)) (s : HeatEquationSolver F) :
  init cfg = Ok s →
  ∃ len nx total_time nt,
    cfg !! "length" = Some len ∧ cfg !! "num_points_x" = Some (VInt nx) ∧
    cfg !! "total_time" = Some total_time ∧ cfg !! "num_points_t" = Some nt ∧
    1 ≤ nx ∧
    py_truediv len (VInt (nx - 1)) = Ok (dx s) ∧
    py_truediv total_time nt = Ok (dt s) ∧
    config s = cfg ∧
    u s = <[Z.to_nat (nx / 2) := f1]> (replicate (Z.to_nat nx) f0).
Proof.
  unfold init, initialize_grid. cbn [config]. intros Hs. inv_bind Hs.
  injection Hs as <-. cbn [config u dx dt].
  apply dict_getitem_Ok in E, E0, E1, E2.
  destruct a0 as [nx| |]; try discriminate.
  injection E3 as <-. injection E6 as <-. injection E7 as <-.
  unfold list_setitem in E8.
  destruct (normalize_index _ _) as [j|] eqn:Hj; [|discriminate].
  injection E8 as <-.
  pose proof (normalize_index_Some _ _ _ Hj) as Hlt.
  rewrite length_replicate in Hlt.
  assert (1 ≤ nx) by lia.
  apply normalize_index_nonneg in Hj as ->; [|by apply Z.div_pos; lia].
  by exists a, nx, a1, a2.
Qed.

Lemma init_length (cfg : gmap string (value F)) (s : HeatEquationSolver F) (nx : Z) :
  init cfg = Ok s → cfg !! "num_points_x" = Some (VInt nx) →
  length (u s) = Z.to_nat nx.
Proof.
  intros (len & nx' & tt & nt & _ & Hnx & _ & _ & _ & _ & _ & _ & ->)%init_inv Hnx'.
  rewrite Hnx in Hnx'. injection Hnx' as ->.
  by rewrite length_insert, length_replicate.
Qed.

(** [solve] on a solver whose field has the configured length: it raises
    exactly when the diffusion number cannot be computed. *)
Lemma solve_unfold (s : HeatEquationSolver F) (alpha : value F) (nx nt : Z) :
  config s !! "alpha" = Some alpha →
  config s !! "num_points_x" = Some (VInt nx) →
  config s !! "num_points_t" = Some (VInt nt) →
  length (u s) = Z.to_nat nx →
  solve s =
    r ← diffusion_number alpha (dt s) (dx s);
    Ok (u s :: snapshots r (Z.to_nat (nx - 2)) (u s) (Z.to_nat nt),
        stability_check r,
        set_u s (field_after r (Z.to_nat (nx - 2)) (u s) (Z.to_nat nt))).
Proof.
  intros Ha Hnx Hnt Hlen. unfold solve, dict_getitem.
  rewrite Ha, Hnx, Hnt. simpl.
  destruct (diffusion_number alpha (dt s) (dx s)) as [r|e]; simpl; [|done].
  by rewrite time_loop_ok.
Qed.

Lemma solve_alpha (s : HeatEquationSolver F) h out s' :
  solve s = Ok (h, out, s') → is_Some (config s !! "alpha").
Proof.
  unfold solve, dict_getitem.
  destruct (config s !! "alpha"); [eauto | discriminate].
Qed.

End Construction.

Section History.

Context {F : Type} `{Arith F}.

Lemma history_lookup (r : F) (m : nat) (field : list F) (n t : nat) :
  (t ≤ n)%nat →
  (field :: snapshots r m field n) !! t = Some (field_after r m field t).
Proof.
  intros Ht. destruct t as [|t]; [done|].
  simpl. apply lookup_snapshots. lia.
Qed.

Lemma history_lookup_inv (r : F) (m : nat) (field : list F) (n t : nat)
    (row : list F) :
  (field :: snapshots r m field n) !! t = Some row →
  (t ≤ n)%nat ∧ row = field_after r m field t.
Proof.
  intros Hrow.
  assert (t ≤ n)%nat as Ht.
  { apply lookup_lt_Some in Hrow. simpl in Hrow.
    rewrite length_snapshots in Hrow. lia. }
  rewrite history_lookup in Hrow by done. by injection Hrow as <-.
Qed.

Lemma last_history (r : F) (m : nat) (field : list F) (n : nat) :
  last (field :: snapshots r m field n) = Some (field_after r m field n).
Proof.
  rewrite last_lookup. simpl. rewrite length_snapshots.
  by apply history_lookup.
Qed.

Lemma field_after_outside (r : F) (m : nat) (field : list F) (n k : nat) :
  (k < 1 ∨ m < k)%nat → field_after r m field n !! k = field !! k.
Proof.
  intros Hk. induction n as [|n IH]; [done|].
  by rewrite field_after_S, relax_outside.
Qed.

(** The solver built from a valid configuration: its field has the
    configured length and [solve] raises only with the diffusion number. *)
Lemma solve_constructed (cfg : gmap string (value F)) (s : HeatEquationSolver F)
    (alpha : value F) (nx nt : Z) :
  cfg !! "alpha" = Some alpha →
  cfg !! "num_points_x" = Some (VInt nx) →
  cfg !! "num_points_t" = Some (VInt nt) →
  init cfg = Ok s →
  solve s =
    r ← diffusion_number alpha (dt s) (dx s);
    Ok (u s :: snapshots r (Z.to_nat (nx - 2)) (u s) (Z.to_nat nt),
        stability_check r,
        set_u s (field_after r (Z.to_nat (nx - 2)) (u s) (Z.to_nat nt))).
Proof.
  intros Ha Hnx Hnt Hs.
  pose proof (init_length _ _ _ Hs Hnx) as Hlen.
  apply init_inv in Hs as (? & ? & ? & ? & _ & _ & _ & _ & _ & _ & _ & Hc & _).
  apply solve_unfold; by rewrite ?Hc.
Qed.

Lemma solve_constructed_inv (cfg : gmap string (value F))
    (s : HeatEquationSolver F) (nx nt : Z) h out s' :
  cfg !! "num_points_x" = Some (VInt nx) →
  cfg !! "num_points_t" = Some (VInt nt) →
  init cfg = Ok s →
  solve s = Ok (h, out, s') →
  ∃ alpha r,
    cfg !! "alpha" = Some alpha ∧
    diffusion_number alpha (dt s) (dx s) = Ok r ∧
    h = u s :: snapshots r (Z.to_nat (nx - 2)) (u s) (Z.to_nat nt) ∧
    out = stability_check r ∧
    s' = set_u s (field_after r (Z.to_nat (nx - 2)) (u s) (Z.to_nat nt)).
Proof.
  intros Hnx Hnt Hs Hsolve.
  destruct (solve_alpha _ _ _ _ Hsolve) as [alpha Ha].
  assert (config s = cfg) as Hc.
  { by apply init_inv in Hs as (? & ? & ? & ? & _ & _ & _ & _ & _ & _ & _ & Hc & _). }
  rewrite Hc in Ha.
  rewrite (solve_constructed cfg s alpha nx nt) in Hsolve by done.
  apply bind_Ok in Hsolve as (r & Hr & [= <- <- <-]).
  by exists alpha, r.
Qed.

End History.

(** ** Properties of [solve] *)

Section Properties.

Context {F : Type} `{Arith F}.

(** C2. For every valid configuration the history returned by [solve] has
    exactly num_points_t + 1 entries: the initial field first, then one
    snapshot per time step in step order, each the result of [step] on the
    one before it; every entry has length num_points_x. [solve] returns
    such a history whenever the diffusion number is computed. *)
Theorem solve_history_shape (cfg : gmap string (value F))
    (s : HeatEquationSolver F) (alpha : value F) (nx nt : Z) :
  valid_config cfg = true →
  cfg !! "alpha" = Some alpha →
  cfg !! "num_points_x" = Some (VInt nx) →
  cfg !! "num_points_t" = Some (VInt nt) →
  init cfg = Ok s →
  (∀ h out s', solve s = Ok (h, out, s') →
     length h = Z.to_nat (nt + 1) ∧
     Forall (λ row, length row = Z.to_nat nx) h ∧
     h !! 0%nat = Some (u s) ∧
     ∃ r, diffusion_number alpha (dt s) (dx s) = Ok r ∧
       ∀ t : nat, Z.of_nat t < nt →
         ∃ prev next, h !! t = Some prev ∧ h !! S t = Some next ∧
                      step r (VInt nx) prev = Ok next) ∧
  (∀ r, diffusion_number alpha (dt s) (dx s) = Ok r →
     ∃ h out s', solve s = Ok (h, out, s')).
Proof.
  intros Hv Ha Hnx Hnt Hs.
  apply valid_config_inv in Hv
    as (? & nx' & ? & nt' & ? & _ & Hnx' & _ & Hnt' & _ & _ & Hnx3 & _ & Hnt1 & _).
  rewrite Hnx in Hnx'. injection Hnx' as <-.
  rewrite Hnt in Hnt'. injection Hnt' as <-.
  pose proof (init_length _ _ _ Hs Hnx) as Hlen.
  split.
  - intros h out s' Hsolve.
    destruct (solve_constructed_inv _ _ _ _ _ _ _ Hnx Hnt Hs Hsolve)
      as (alpha' & r & Ha' & Hr & -> & -> & ->).
    rewrite Ha in Ha'. injection Ha' as <-.
    split; [|split; [|split]].
    + simpl. rewrite length_snapshots. lia.
    + apply Forall_forall. intros row Hrow%list_elem_of_lookup.
      destruct Hrow as [t Ht].
      apply history_lookup_inv in Ht as [_ ->].
      by rewrite length_field_after.
    + done.
    + exists r. split; [done|]. intros t Ht.
      exists (field_after r (Z.to_nat (nx - 2)) (u s) t),
             (field_after r (Z.to_nat (nx - 2)) (u s) (S t)).
      rewrite !history_lookup by lia.
      split; [done|]. split; [done|].
      rewrite step_ok by (by rewrite length_field_after). done.
  - intros r Hr. rewrite (solve_constructed cfg s alpha nx nt) by done.
    rewrite Hr. simpl. eauto.
Qed.


(** C3. For every valid configuration, every snapshot of the history
    returned by [solve] is zero at index 0 and at index num_points_x - 1. *)
Theorem boundary_stays_zero (cfg : gmap string (value F))
    (s : HeatEquationSolver F) (nx : Z) h out s' (t : nat) (row : list F) :
  valid_config cfg = true →
  cfg !! "num_points_x" = Some (VInt nx) →
  init cfg = Ok s →
  solve s = Ok (h, out, s') →
  h !! t = Some row →
  row !! 0%nat = Some f0 ∧ row !! Z.to_nat (nx - 1) = Some f0.
Proof.
  intros Hv Hnx Hs Hsolve Hrow.
  apply valid_config_inv in Hv
    as (? & nx' & ? & nt & ? & _ & Hnx' & _ & Hnt & _ & _ & Hnx3 & _ & _ & _).
  rewrite Hnx in Hnx'. injection Hnx' as <-.
  destruct (solve_constructed_inv _ _ _ _ _ _ _ Hnx Hnt Hs Hsolve)
    as (alpha & r & _ & _ & -> & _ & _).
  apply history_lookup_inv in Hrow as [_ ->].
  apply init_inv in Hs
    as (? & nx' & ? & ? & _ & Hnx' & _ & _ & _ & _ & _ & _ & Hu).
  rewrite Hnx in Hnx'. injection Hnx' as <-.
  assert (1 ≤ nx / 2 ≤ nx - 2) as Hmid.
  { split; [apply Z.div_le_lower_bound; lia|].
    assert (nx / 2 < nx - 1); [|lia]. apply Z.div_lt_upper_bound; lia. }
  rewrite !field_after_outside by lia. rewrite Hu.
  rewrite !list_lookup_insert_ne by lia.
  split; apply lookup_replicate_2; lia.
Qed.

(** C4. For every valid configuration, the first entry of the history
    returned by the first call to [solve] is the unit impulse: 1.0 at index
    num_points_x // 2 and 0.0 at every other index. *)
Theorem initial_snapshot_is_impulse (cfg : gmap string (value F))
    (s : HeatEquationSolver F) (nx : Z) h out s' :
  valid_config cfg = true →
  cfg !! "num_points_x" = Some (VInt nx) →
  init cfg = Ok s →
  solve s = Ok (h, out, s') →
  ∃ row, h !! 0%nat = Some row ∧
    length row = Z.to_nat nx ∧
    row !! Z.to_nat (nx / 2) = Some f1 ∧
    ∀ j : nat, Z.of_nat j < nx → Z.of_nat j ≠ nx / 2 → row !! j = Some f0.
Proof.
  intros Hv Hnx Hs Hsolve.
  apply valid_config_inv in Hv
    as (? & nx' & ? & nt & ? & _ & Hnx' & _ & Hnt & _ & _ & Hnx3 & _ & _ & _).
  rewrite Hnx in Hnx'. injection Hnx' as <-.
  destruct (solve_constructed_inv _ _ _ _ _ _ _ Hnx Hnt Hs Hsolve)
    as (alpha & r & _ & _ & -> & _ & _).
  pose proof (init_length _ _ _ Hs Hnx) as Hlen.
  apply init_inv in Hs
    as (? & nx' & ? & ? & _ & Hnx' & _ & _ & _ & _ & _ & _ & Hu).
  rewrite Hnx in Hnx'. injection Hnx' as <-.
  assert (0 ≤ nx / 2 < nx) as Hmid.
  { split; [apply Z.div_pos; lia | apply Z.div_lt_upper_bound; lia]. }
  exists (u s). split; [done|]. split; [done|]. rewrite Hu. split.
  - apply list_lookup_insert_eq. rewrite length_replicate. lia.
  - intros j Hj Hne. rewrite list_lookup_insert_ne by lia.
    apply lookup_replicate_2. lia.
Qed.

(** C6, as the code has it. The stability check is advisory only. For
    every valid configuration for which r = alpha * dt / dx ** 2 is computed
    without an arithmetic exception, [solve] returns the full history of
    num_points_t + 1 entries whether or not r > 0.5; the warning is printed
    exactly when r > 0.5; and the history and the final solver are those of
    the time loop, which does not mention the check. *)
Theorem stability_check_is_advisory (cfg : gmap string (value F))
    (s : HeatEquationSolver F) (alpha : value F) (nx nt : Z) (r : F) :
  valid_config cfg = true →
  cfg !! "alpha" = Some alpha →
  cfg !! "num_points_x" = Some (VInt nx) →
  cfg !! "num_points_t" = Some (VInt nt) →
  init cfg = Ok s →
  diffusion_number alpha (dt s) (dx s) = Ok r →
  ∃ h out s',
    solve s = Ok (h, out, s') ∧
    length h = Z.to_nat (nt + 1) ∧
    (fgt r fhalf = true → out = [StabilityWarning r]) ∧
    (fgt r fhalf = false → out = []) ∧
    time_loop r (VInt nx) (Z.to_nat nt) s [u s] = Ok (h, s').
Proof.
  intros Hv Ha Hnx Hnt Hs Hr.
  apply valid_config_inv in Hv
    as (? & ? & ? & nt' & ? & _ & _ & _ & Hnt' & _ & _ & _ & _ & Hnt1 & _).
  rewrite Hnt in Hnt'. injection Hnt' as <-.
  pose proof (init_length _ _ _ Hs Hnx) as Hlen.
  eexists _, _, _. split.
  { rewrite (solve_constructed cfg s alpha nx nt) by done.
    rewrite Hr. simpl. reflexivity. }
  split; [simpl; rewrite length_snapshots; lia|].
  unfold stability_check.
  split; [by intros ->|]. split; [by intros ->|].
  by rewrite time_loop_ok.
Qed.


(** The constructor and [solve] look at the configuration through the
    fields they read, and at nothing else of it. *)
Lemma time_loop_with_config (cfg : gmap string (value F)) (r : F)
    (nx : value F) (n : nat) (s : HeatEquationSolver F)
    (results : list (list F)) :
  time_loop r nx n (with_config cfg s) results
  = match time_loop r nx n s results with
    | Ok (h, s') => Ok (h, with_config cfg s')
    | Raise e => Raise e
    end.
Proof.
  revert s results. induction n as [|n IH]; intros s results; [done|].
  cbn [time_loop with_config u].
  destruct (step r nx (u s)) as [u_new|e]; [|done].
  simpl. apply (IH (set_u s u_new)).
Qed.

Lemma solve_with_config (cfg : gmap string (value F)) (s : HeatEquationSolver F) :
  (∀ key, key ∈ solve_fields → cfg !! key = config s !! key) →
  solve (with_config cfg s)
  = match solve s with
    | Ok (h, out, s') => Ok (h, out, with_config cfg s')
    | Raise e => Raise e
    end.
Proof.
  intros Hagree. unfold solve, dict_getitem. cbn [with_config config u dx dt].
  rewrite !Hagree by (unfold solve_fields; set_solver).
  destruct (config s !! "alpha") as [alpha|]; [|done].
  destruct (config s !! "num_points_x") as [nx|]; [|done].
  destruct (config s !! "num_points_t") as [nt|]; [|done].
  simpl. destruct (diffusion_number alpha (dt s) (dx s)) as [r|e]; [|done].
  simpl. destruct (as_index nt) as [n|e]; [|done].
  simpl. rewrite (time_loop_with_config cfg r nx (Z.to_nat n) s [u s]).
  by destruct (time_loop r nx (Z.to_nat n) s [u s]) as [[h s']|e].
Qed.

Lemma init_with_config (cfg1 cfg2 : gmap string (value F)) :
  (∀ key, key ∈ grid_fields → cfg1 !! key = cfg2 !! key) →
  init cfg2
  = match init cfg1 with
    | Ok s => Ok (with_config cfg2 s)
    | Raise e => Raise e
    end.
Proof.
  intros Hagree. unfold init, initialize_grid, dict_getitem. cbn [config].
  rewrite <- !Hagree by (unfold grid_fields; set_solver).
  destruct (cfg1 !! "length") as [len|]; [|done].
  destruct (cfg1 !! "num_points_x") as [nx|]; [|done].
  destruct (cfg1 !! "total_time") as [total_time|]; [|done].
  destruct (cfg1 !! "num_points_t") as [nt|]; [|done].
  simpl. destruct (py_sub1 nx) as [nx1|e]; [|done].
  simpl. destruct (py_truediv len nx1) as [dx'|e]; [|done].
  simpl. destruct (py_truediv total_time nt) as [dt'|e]; [|done].
  simpl. destruct (list_repeat f0 nx) as [zeros|e]; [|done].
  simpl. destruct (as_index nx) as [n|e]; [|done].
  simpl. by destruct (list_setitem zeros (n / 2) f1) as [u'|e].
Qed.

(** X12. Two configurations that agree on the five required fields give
    the same grid, the same history and the same output, whatever else they
    hold: the constructor and [solve] read no other field. *)
Lemma history_depends_on_required_fields (cfg1 cfg2 : gmap string (value F))
    (s1 : HeatEquationSolver F) h out s1' :
  (∀ key, key ∈ grid_fields ++ solve_fields → cfg1 !! key = cfg2 !! key) →
  init cfg1 = Ok s1 →
  solve s1 = Ok (h, out, s1') →
  init cfg2 = Ok (with_config cfg2 s1) ∧
  solve (with_config cfg2 s1) = Ok (h, out, with_config cfg2 s1').
Proof.
  intros Hagree Hs Hsolve.
  assert (config s1 = cfg1) as Hc.
  { by apply init_inv in Hs as (? & ? & ? & ? & _ & _ & _ & _ & _ & _ & _ & Hc & _). }
  split.
  - rewrite (init_with_config cfg1 cfg2), Hs; [done|].
    intros key Hkey. apply Hagree, elem_of_app. by left.
  - rewrite solve_with_config, Hsolve; [done|].
    intros key Hkey. rewrite Hc. symmetry. apply Hagree, elem_of_app. by right.
Qed.

(** C9. A second call to [solve] on the same solver continues from the
    field the first call left: its history starts with the last entry of
    the first history, and has again num_points_t + 1 entries. *)
Theorem second_solve_continues (cfg : gmap string (value F))
    (s : HeatEquationSolver F) (nx nt : Z) h1 out1 s1 :
  valid_config cfg = true →
  cfg !! "num_points_x" = Some (VInt nx) →
  cfg !! "num_points_t" = Some (VInt nt) →
  init cfg = Ok s →
  solve s = Ok (h1, out1, s1) →
  ∃ h2 out2 s2,
    solve s1 = Ok (h2, out2, s2) ∧
    h2 !! 0%nat = last h1 ∧
    h2 !! 0%nat = Some (u s1) ∧
    length h2 = Z.to_nat (nt + 1).
Proof.
  intros Hv Hnx Hnt Hs Hsolve.
  apply valid_config_inv in Hv
    as (? & ? & ? & nt' & ? & _ & _ & _ & Hnt' & _ & _ & _ & _ & Hnt1 & _).
  rewrite Hnt in Hnt'. injection Hnt' as <-.
  pose proof (init_length _ _ _ Hs Hnx) as Hlen.
  destruct (solve_constructed_inv _ _ _ _ _ _ _ Hnx Hnt Hs Hsolve)
    as (alpha & r & Ha & Hr & -> & -> & ->).
  assert (config s = cfg) as Hc.
  { by apply init_inv in Hs as (? & ? & ? & ? & _ & _ & _ & _ & _ & _ & _ & Hc & _). }
  eexists _, _, _. split.
  { rewrite (solve_unfold _ alpha nx nt); cbn [set_u config u dx dt];
      rewrite ?Hc, ?length_field_after; try done.
    rewrite Hr. simpl. reflexivity. }
  rewrite last_history. split; [done|]. split; [done|].
  simpl. rewrite length_snapshots. lia.
Qed.

(** [time_loop] changes nothing but the field, and keeps the last entry of
    the history equal to the field. *)
Lemma time_loop_frame (r : F) (nx : value F) (n : nat)
    (s : HeatEquationSolver F) (results : list (list F)) results' s' :
  time_loop r nx n s results = Ok (results', s') →
  config s' = config s ∧ dx s' = dx s ∧ dt s' = dt s ∧
  (last results = Some (u s) → last results' = Some (u s')).
Proof.
  revert s results.
  induction n as [|n IH]; intros s results Hloop.
  - by injection Hloop as <- <-.
  - cbn [time_loop] in Hloop.
    apply bind_Ok in Hloop as (u_new & _ & Hloop).
    apply IH in Hloop as (Hc & Hdx & Hdt & Hlast).
    repeat (split; [done|]).
    intros _. apply Hlast. by rewrite last_snoc.
Qed.

(** C10. [solve] mutates only the field [u]: the configuration dictionary,
    [dx] and [dt] are the same after [solve] returns, and the final [u] is
    the last entry of the returned history. *)
Theorem solve_frame (s : HeatEquationSolver F) h out s' :
  solve s = Ok (h, out, s') →
  config s' = config s ∧ dx s' = dx s ∧ dt s' = dt s ∧ last h = Some (u s').
Proof.
  unfold solve. intros Hsolve. inv_bind Hsolve.
  destruct a4 as [results s'']. injection Hsolve as <- <- <-.
  apply time_loop_frame in E4 as (Hc & Hdx & Hdt & Hlast).
  repeat (split; [done|]). by apply Hlast.
Qed.

(** C5, as the code has it. A configuration that lacks one of length,
    num_points_x, total_time, num_points_t is refused by the constructor
    with a KeyError naming the first of them that is missing. A
    configuration that lacks alpha is not refused: the constructor builds
    the same grid and field with or without alpha, and the KeyError for
    alpha is raised by [solve]. *)
Theorem missing_field_errors (cfg : gmap string (value F)) :
  (∀ key, key ∈ grid_fields → cfg !! key = None →
     ∃ key', find (is_missing cfg) grid_fields = Some key' ∧
             cfg !! key' = None ∧
             init cfg = Raise (KeyError key')) ∧
  (∀ s, init cfg = Ok s →
     init (delete "alpha" cfg)
     = Ok {| config := delete "alpha" cfg; u := u s; dx := dx s; dt := dt s |}) ∧
  (∀ s, cfg !! "alpha" = None → init cfg = Ok s →
     solve s = Raise (KeyError "alpha")).
Proof.
  split; [|split].
  - intros key Hkey Hnone.
    unfold init, initialize_grid, dict_getitem, grid_fields, is_missing.
    cbn [config find].
    destruct (cfg !! "length") eqn:E1; [|by eexists].
    destruct (cfg !! "num_points_x") eqn:E2; [|by eexists].
    destruct (cfg !! "total_time") eqn:E3; [|by eexists].
    destruct (cfg !! "num_points_t") eqn:E4; [|by eexists].
    exfalso. unfold grid_fields in Hkey.
    repeat (apply elem_of_cons in Hkey as [->|Hkey]; [congruence|]).
    by apply elem_of_nil in Hkey.
  - intros s. unfold init, initialize_grid, dict_getitem. cbn [config].
    rewrite !lookup_delete_ne by done.
    intros Hs. inv_bind Hs. injection Hs as <-.
    rewrite E, E0, E1, E2. simpl.
    rewrite E3. simpl. rewrite E4. simpl. rewrite E5. simpl.
    rewrite E6. simpl. rewrite E7. simpl. rewrite E8. done.
  - intros s Hnone Hs.
    assert (config s = cfg) as Hc.
    { by apply init_inv in Hs as (? & ? & ? & ? & _ & _ & _ & _ & _ & _ & _ & Hc & _). }
    unfold solve, dict_getitem. by rewrite Hc, Hnone.
Qed.

End Properties.






(** ** The maximum principle in exact arithmetic *)

Section Exact.

Local Open Scope Q_scope.

Lemma exact_fgt_false (x y : Q) : fgt x y = false ↔ x <= y.
Proof.
  simpl. rewrite negb_false_iff. apply Qle_bool_iff.
Qed.

Lemma exact_fgt_true (x y : Q) : fgt x y = true ↔ y < x.
Proof.
  simpl. rewrite negb_true_iff, <- not_true_iff_false, Qle_bool_iff.
  split; [apply Qnot_le_lt | apply Qlt_not_le].
Qed.

Lemma foldl_max_ub (l : list Q) (acc : Q) :
  acc <= foldl (λ m y, if fgt y m then y else m) acc l ∧
  ∀ x, x ∈ l → x <= foldl (λ m y, if fgt y m then y else m) acc l.
Proof.
  revert acc. induction l as [|y l IH]; intros acc; simpl foldl.
  - split; [apply Qle_refl|]. intros x Hx. by apply elem_of_nil in Hx.
  - destruct (IH (if fgt y acc then y else acc)) as [Hacc Hl].
    assert (acc <= (if fgt y acc then y else acc)
            ∧ y <= (if fgt y acc then y else acc)) as [Ha Hy].
    { destruct (fgt y acc) eqn:E.
      - apply exact_fgt_true in E. split; [by apply Qlt_le_weak | apply Qle_refl].
      - apply exact_fgt_false in E. split; [apply Qle_refl | done]. }
    split; [by eapply Qle_trans|].
    intros x [->|Hx]%elem_of_cons; [by eapply Qle_trans | by apply Hl].
Qed.

Lemma list_max_ub (l : list Q) (M x : Q) :
  list_max l = Some M → x ∈ l → x <= M.
Proof.
  destruct l as [|y l]; [done|]. intros [= <-] [->|Hx]%elem_of_cons.
  - apply (proj1 (foldl_max_ub l y)).
  - by apply (proj2 (foldl_max_ub l y)).
Qed.

Lemma stencil_le (r M : Q) (field : list Q) (k : nat) :
  0 <= r → r <= 1 # 2 →
  (∀ x, x ∈ field → x <= M) →
  (1 ≤ k)%nat → (k + 1 < length field)%nat →
  stencil r field k <= M.
Proof.
  intros Hr0 Hr Hub Hk1 Hk2.
  assert (∀ j, (j < length field)%nat → entry field j <= M) as Hentry.
  { intros j Hj. apply Hub. eapply list_elem_of_lookup_2.
    by apply entry_lookup. }
  pose proof (Hentry k ltac:(lia)) as Ha.
  pose proof (Hentry (k + 1)%nat ltac:(lia)) as Hb.
  pose proof (Hentry (k - 1)%nat ltac:(lia)) as Hc.
  unfold stencil. simpl.
  generalize dependent (entry field k). intros a Ha.
  generalize dependent (entry field (k + 1)). intros b Hb.
  generalize dependent (entry field (k - 1)). intros c Hc.
  nra.
Qed.

Lemma relax_le (r M : Q) (m : nat) (field : list Q) :
  0 <= r → r <= 1 # 2 → (m = 0 ∨ m + 1 < length field)%nat →
  (∀ x, x ∈ field → x <= M) →
  ∀ x, x ∈ relax r m field → x <= M.
Proof.
  intros Hr0 Hr Hm Hub x [k Hk]%list_elem_of_lookup.
  destruct (decide (1 ≤ k ≤ m)%nat) as [Hin|Hout].
  - rewrite relax_interior in Hk by lia. injection Hk as <-.
    apply stencil_le; try done; lia.
  - rewrite relax_outside in Hk by lia.
    apply Hub. by eapply list_elem_of_lookup_2.
Qed.

Lemma inject_Z_pos (n : Z) : (0 < n)%Z → 0 < inject_Z n.
Proof. intros Hn. change 0 with (inject_Z 0). by rewrite <- Zlt_Qlt. Qed.

Lemma Qdiv_pos (a b : Q) : 0 < a → 0 < b → 0 < a / b.
Proof.
  intros Ha Hb. apply Qlt_shift_div_l; [done|]. by rewrite Qmult_0_l.
Qed.

(** In exact arithmetic a positive number divided by a positive int is
    computed, and is positive. *)
Lemma exact_truediv_pos (a : value Q) (n : Z) :
  is_positive a = true → (1 ≤ n)%Z →
  ∃ x, py_truediv a (VInt n) = Ok x ∧ 0 < x.
Proof.
  intros Ha Hn.
  assert (0 < inject_Z n) as Hpos by (apply inject_Z_pos; lia).
  destruct a as [m|y|]; simpl in *; [| |done].
  - apply Z.ltb_lt in Ha.
    destruct (Z.eqb_spec n 0) as [?|_]; [lia|].
    eexists. split; [done|]. apply Qdiv_pos; [by apply inject_Z_pos | done].
  - unfold float_truediv. simpl.
    destruct (Qeq_bool (inject_Z n) 0) eqn:E.
    + apply Qeq_bool_iff in E. rewrite E in Hpos. by apply Qlt_irrefl in Hpos.
    + eexists. split; [done|]. apply Qdiv_pos; [|done].
      by apply (exact_fgt_true y 0).
Qed.

(** In exact arithmetic the diffusion number of positive alpha, dt and dx is
    computed, and is positive. *)
Lemma exact_diffusion_pos (alpha : value Q) (dt' dx' : Q) :
  is_positive alpha = true → 0 < dt' → 0 < dx' →
  ∃ r, diffusion_number alpha dt' dx' = Ok r ∧ 0 < r.
Proof.
  intros Ha Hdt Hdx. unfold diffusion_number.
  assert (∃ a, py_mul_float alpha dt' = Ok a ∧ 0 < a) as (a & -> & Hapos).
  { destruct alpha as [n|y|]; simpl in *; [| |done].
    - apply Z.ltb_lt in Ha. eexists. split; [done|].
      apply Qmult_lt_0_compat; [by apply inject_Z_pos | done].
    - eexists. split; [done|].
      apply Qmult_lt_0_compat; [by apply (exact_fgt_true y 0) | done]. }
  simpl. unfold float_truediv. simpl.
  assert (0 < dx' * dx') as Hd by (by apply Qmult_lt_0_compat).
  destruct (Qeq_bool (dx' * dx') 0) eqn:E.
  - apply Qeq_bool_iff in E. rewrite E in Hd. by apply Qlt_irrefl in Hd.
  - eexists. split; [done|]. by apply Qdiv_pos.
Qed.

(** In exact arithmetic every valid configuration is constructed and
    solved without an exception. *)
Lemma exact_solve_returns (cfg : gmap string (value Q)) :
  valid_config cfg = true →
  ∃ s h out s', init cfg = Ok s ∧ solve s = Ok (h, out, s').
Proof.
  intros Hv.
  apply valid_config_inv in Hv
    as (len & nx & tt & nt & alpha & Hlen & Hnx & Htt & Hnt & Ha
        & Hlenpos & Hnx3 & Httpos & Hnt1 & Hapos).
  destruct (exact_truediv_pos len (nx - 1) Hlenpos ltac:(lia)) as (dx' & Hdx & Hdxpos).
  destruct (exact_truediv_pos tt nt Httpos Hnt1) as (dt' & Hdt & Hdtpos).
  destruct (exact_diffusion_pos alpha dt' dx' Hapos Hdtpos Hdxpos) as (r & Hr & _).
  assert (0 ≤ nx / 2 < nx)%Z as Hmid.
  { split; [apply Z.div_pos; lia | apply Z.div_lt_upper_bound; lia]. }
  assert (init cfg
          = Ok {| config := cfg;
                  u := <[Z.to_nat (nx / 2) := f1]> (replicate (Z.to_nat nx) f0);
                  dx := dx'; dt := dt' |}) as Hs.
  { unfold init, initialize_grid, dict_getitem. cbn [config].
    rewrite Hlen, Hnx, Htt, Hnt. cbn [mbind result_bind py_sub1].
    rewrite Hdx, Hdt. cbn [mbind result_bind list_repeat as_index].
    unfold list_setitem.
    rewrite <- (Z2Nat.id (nx / 2)) at 1 by lia.
    rewrite normalize_index_nat by (rewrite length_replicate; lia).
    done. }
  eexists _, _, _, _. split; [exact Hs|].
  rewrite (solve_constructed cfg _ alpha nx nt) by done.
  cbn [dx dt]. rewrite Hr. simpl. reflexivity.
Qed.


End Exact.

(** ** The theorems on the configurations above *)

Lemma solve_history_shape_witness :
  length test_history = 11%nat ∧
  Forall (λ row : list float, length row = 10%nat) test_history ∧
  test_history !! 0%nat = Some (u test_solver).
Proof.
  destruct (solve_history_shape test_config test_solver (VFloat 0.01%float) 10 10)
    as [Hshape _]; try (vm_compute; reflexivity).
  destruct (Hshape test_history [] test_solver_after) as (Hlen & Hrows & Hfirst & _).
  { vm_compute. reflexivity. }
  split; [exact Hlen | split; [exact Hrows | exact Hfirst]].
Defined.


Lemma boundary_stays_zero_witness :
  default [] (last test_history) !! 0%nat = Some 0%float ∧
  default [] (last test_history) !! 9%nat = Some 0%float.
Proof.
  refine (boundary_stays_zero test_config test_solver 10 test_history []
            test_solver_after 10 (default [] (last test_history)) _ _ _ _ _);
    vm_compute; reflexivity.
Defined.

Lemma initial_snapshot_is_impulse_witness :
  ∃ row, test_history !! 0%nat = Some row ∧
    length row = 10%nat ∧
    row !! 5%nat = Some 1%float ∧
    ∀ j : nat, Z.of_nat j < 10 → Z.of_nat j ≠ 10 / 2 → row !! j = Some 0%float.
Proof.
  refine (initial_snapshot_is_impulse test_config test_solver 10 test_history []
            test_solver_after _ _ _ _); vm_compute; reflexivity.
Defined.

Lemma stability_check_is_advisory_witness :
  ∃ h out s',
    solve unstable_solver = Ok (h, out, s') ∧
    length h = 2%nat ∧
    (fgt 81%float fhalf = true → out = [StabilityWarning 81%float]) ∧
    (fgt 81%float fhalf = false → out = []) ∧
    time_loop 81%float (VInt 10) 1 unstable_solver [u unstable_solver] = Ok (h, s').
Proof.
  refine (stability_check_is_advisory unstable_config unstable_solver
            (VFloat 1%float) 10 1 81%float _ _ _ _ _ _); vm_compute; reflexivity.
Defined.


Lemma second_solve_continues_witness :
  ∃ h2 out2 s2,
    solve test_solver_after = Ok (h2, out2, s2) ∧
    h2 !! 0%nat = last test_history ∧
    h2 !! 0%nat = Some (u test_solver_after) ∧
    length h2 = 11%nat.
Proof.
  refine (second_solve_continues test_config test_solver 10 10 test_history []
            test_solver_after _ _ _ _ _); vm_compute; reflexivity.
Defined.

Lemma solve_frame_witness :
  config test_solver_after = config test_solver ∧
  dx test_solver_after = dx test_solver ∧
  dt test_solver_after = dt test_solver ∧
  last test_history = Some (u test_solver_after).
Proof.
  apply (solve_frame test_solver test_history []); vm_compute; reflexivity.
Defined.

(** A configuration without alpha is accepted by the constructor; the
    KeyError comes from [solve]. *)
Lemma construction_accepts_missing_alpha :
  test_config_without_alpha !! "alpha" = None ∧
  ∃ s, init test_config_without_alpha = Ok s ∧
       solve s = Raise (KeyError "alpha").
Proof.
  split; [vm_compute; reflexivity|].
  exists (constructed test_config_without_alpha).
  split; vm_compute; reflexivity.
Qed.

Lemma missing_field_errors_witness :
  init (delete "total_time" test_config) = Raise (KeyError "total_time") ∧
  solve (constructed test_config_without_alpha) = Raise (KeyError "alpha").
Proof.
  split.
  - destruct (proj1 (missing_field_errors (delete "total_time" test_config))
                "total_time") as (key & Hkey & _ & Hinit).
    + unfold grid_fields. do 2 apply list_elem_of_further. apply list_elem_of_here.
    + vm_compute. reflexivity.
    + vm_compute in Hkey. injection Hkey as <-. exact Hinit.
  - apply (proj2 (proj2 (missing_field_errors test_config_without_alpha)));
      vm_compute; reflexivity.
Defined.


(** ** Doubles at the ends of their range *)

(** With doubles, [dx ** 2] can underflow to [0.0] for a valid
    configuration: [solve] then raises ZeroDivisionError before the
    stability check, and returns no history. *)
Remark binary64_dx_squared_underflows :
  valid_config underflow_config = true ∧
  init underflow_config = Ok (constructed underflow_config) ∧
  solve (constructed underflow_config) = Raise ZeroDivisionError.
Proof. repeat split; vm_compute; reflexivity. Qed.

(** and [dx ** 2] can overflow, which [**] reports as OverflowError. *)
Remark binary64_dx_squared_overflows :
  valid_config overflow_config = true ∧
  init overflow_config = Ok (constructed overflow_config) ∧
  solve (constructed overflow_config) = Raise OverflowError.
Proof. repeat split; vm_compute; reflexivity. Qed.

(** The history of the test configuration, computed with doubles, obeys the
    maximum principle; the unstable one does not. *)
Example binary64_test_history_non_amplifying :
  non_amplifying test_history = true ∧
  non_amplifying (solved unstable_solver).1.1 = false.
Proof. split; vm_compute; reflexivity. Qed.

(** The optional field [output_file] does not reach the solver. *)
Example output_file_is_ignored :
  solve (with_config (delete "output_file" test_config) test_solver)
  = Ok (test_history, [],
        with_config (delete "output_file" test_config) test_solver_after).
Proof.
  refine (proj2 (history_depends_on_required_fields test_config
                   (delete "output_file" test_config) test_solver
                   test_history [] test_solver_after _ _ _));
    [|vm_compute; reflexivity..].
  intros key Hkey. unfold grid_fields, solve_fields in Hkey. simpl in Hkey.
  repeat (apply elem_of_cons in Hkey as [->|Hkey]; [vm_compute; reflexivity|]).
  by apply elem_of_nil in Hkey.
Defined.

(** ** More on the constructor and on [solve] *)

Section Edges_of_the_solver.

Context {F : Type} `{Arith F}.

(** What a call of [solve] that returned has gone through. *)
Lemma solve_inv (s : HeatEquationSolver F) h out s' :
  solve s = Ok (h, out, s') →
  ∃ alpha nx nt r,
    config s !! "alpha" = Some alpha ∧
    config s !! "num_points_x" = Some nx ∧
    config s !! "num_points_t" = Some (VInt nt) ∧
    diffusion_number alpha (dt s) (dx s) = Ok r ∧
    out = stability_check r ∧
    time_loop r nx (Z.to_nat nt) s [u s] = Ok (h, s').
Proof.
  unfold solve. intros Hsolve.
  apply bind_Ok in Hsolve as (alpha & Ha%dict_getitem_Ok & Hsolve).
  apply bind_Ok in Hsolve as (nx & Hnx%dict_getitem_Ok & Hsolve).
  apply bind_Ok in Hsolve as (ntv & Hnt%dict_getitem_Ok & Hsolve).
  apply bind_Ok in Hsolve as (r & Hr & Hsolve).
  apply bind_Ok in Hsolve as (nt & Hn & Hsolve).
  apply bind_Ok in Hsolve as ([h0 s0] & Hloop & [= <- <- <-]).
  destruct ntv as [nt'| |]; try discriminate. injection Hn as ->.
  by exists alpha, nx, nt, r.
Qed.

Lemma init_config (cfg : gmap string (value F)) (s : HeatEquationSolver F) :
  init cfg = Ok s → config s = cfg.
Proof.
  by intros (? & ? & ? & ? & _ & _ & _ & _ & _ & _ & _ & Hc & _)%init_inv.
Qed.

(** *** The length of the field *)

Lemma for_each_update_length (r : F) (u0 : list F) (idx : list Z)
    (acc acc' : list F) :
  for_each (update_point r u0) idx acc = Ok acc' → length acc' = length acc.
Proof.
  revert acc. induction idx as [|i idx IH]; intros acc Hloop; simpl in Hloop.
  - by injection Hloop as <-.
  - apply bind_Ok in Hloop as (acc1 & Hpoint & Hloop).
    rewrite (IH _ Hloop). unfold update_point in Hpoint. inv_bind Hpoint.
    unfold list_setitem in Hpoint.
    destruct (normalize_index _ _); [|discriminate].
    injection Hpoint as <-. apply length_insert.
Qed.

Lemma step_length (r : F) (nx : value F) (u0 u1 : list F) :
  step r nx u0 = Ok u1 → length u1 = length u0.
Proof.
  unfold step. intros Hstep. inv_bind Hstep.
  by apply for_each_update_length in Hstep.
Qed.

Lemma time_loop_lengths (r : F) (nx : value F) (n : nat)
    (s : HeatEquationSolver F) (results : list (list F)) results' s' :
  time_loop r nx n s results = Ok (results', s') →
  Forall (λ row, length row = length (u s)) results →
  length (u s') = length (u s) ∧
  Forall (λ row, length row = length (u s)) results'.
Proof.
  revert s results. induction n as [|n IH]; intros s results Hloop Hres.
  - by injection Hloop as <- <-.
  - cbn [time_loop] in Hloop.
    apply bind_Ok in Hloop as (u_new & Hlen%step_length & Hloop).
    apply IH in Hloop; cbn [set_u u] in *; rewrite ?Hlen in *; [done|].
    apply Forall_app. split; [done|]. by apply Forall_singleton.
Qed.

(** X1. [solve] never changes the number of grid points: whatever solver
    it is called on, when it returns, the field it leaves and every
    snapshot of its history have the length of the field it started
    from. *)
Theorem solve_preserves_length (s : HeatEquationSolver F) h out s' :
  solve s = Ok (h, out, s') →
  length (u s') = length (u s) ∧
  Forall (λ row, length row = length (u s)) h.
Proof.
  intros (alpha & nx & nt & r & _ & _ & _ & _ & _ & Hloop)%solve_inv.
  apply time_loop_lengths in Hloop; [done|]. by apply Forall_singleton.
Qed.

(** X2. With a step count that is not positive the loop body never runs:
    [solve] returns the initial snapshot alone and leaves the solver as it
    was. *)
Theorem no_step_without_positive_count (s : HeatEquationSolver F) (nt : Z)
    h out s' :
  config s !! "num_points_t" = Some (VInt nt) →
  nt ≤ 0 →
  solve s = Ok (h, out, s') →
  h = [u s] ∧ s' = s.
Proof.
  intros Hnt Hle (alpha & nx & nt' & r & _ & _ & Hnt' & _ & _ & Hloop)%solve_inv.
  rewrite Hnt in Hnt'. injection Hnt' as <-.
  replace (Z.to_nat nt) with 0%nat in Hloop by lia.
  by injection Hloop as <- <-.
Qed.

(** *** Two calls in a row *)

Lemma field_after_add (r : F) (m : nat) (field : list F) (n k : nat) :
  field_after r m field (n + k) = field_after r m (field_after r m field n) k.
Proof.
  unfold field_after. rewrite Nat.add_comm. apply Nat.iter_add.
Qed.

Lemma snapshots_add (r : F) (m : nat) (field : list F) (n k : nat) :
  snapshots r m field (n + k)
  = snapshots r m field n ++ snapshots r m (field_after r m field n) k.
Proof.
  revert field. induction n as [|n IH]; intros field; [done|].
  cbn [Nat.add]. rewrite !snapshots_S, IH. simpl. do 2 f_equal.
  by rewrite field_after_relax.
Qed.

(** X3. Two calls of [solve] in a row on a solver the constructor built
    do what one run of twice as many time steps would do: the
    first history followed by the second without its first entry is the
    history of that run, the solver ends in the same state, and the second
    call prints what the first printed. *)
Theorem two_solves_are_one_long_run (cfg : gmap string (value F))
    (s : HeatEquationSolver F) (alpha : value F) (nx nt : Z)
    h1 out1 s1 h2 out2 s2 :
  cfg !! "alpha" = Some alpha →
  cfg !! "num_points_x" = Some (VInt nx) →
  cfg !! "num_points_t" = Some (VInt nt) →
  init cfg = Ok s →
  solve s = Ok (h1, out1, s1) →
  solve s1 = Ok (h2, out2, s2) →
  ∃ r, diffusion_number alpha (dt s) (dx s) = Ok r ∧
    time_loop r (VInt nx) (Z.to_nat nt + Z.to_nat nt) s [u s]
    = Ok (h1 ++ drop 1 h2, s2) ∧
    out2 = out1.
Proof.
  intros Ha Hnx Hnt Hs Hsolve1 Hsolve2.
  pose proof (init_length _ _ _ Hs Hnx) as Hlen.
  pose proof (init_config _ _ Hs) as Hc.
  destruct (solve_constructed_inv _ _ _ _ _ _ _ Hnx Hnt Hs Hsolve1)
    as (alpha' & r & Ha' & Hr & -> & -> & ->).
  rewrite Ha in Ha'. injection Ha' as <-.
  rewrite (solve_unfold _ alpha nx nt) in Hsolve2;
    cbn [set_u config u dx dt]; rewrite ?Hc, ?length_field_after; try done.
  cbn [set_u config u dx dt] in Hsolve2. rewrite Hr in Hsolve2.
  injection Hsolve2 as <- <- <-.
  exists r. split; [done|]. split; [|done].
  rewrite time_loop_ok by done. cbn [drop].
  rewrite snapshots_add, field_after_add. done.
Qed.

End Edges_of_the_solver.

Section Edges_of_the_grid.

Context {F : Type} `{Arith F}.

Lemma relax_no_interior (r : F) (field : list F) : relax r 0 field = field.
Proof. done. Qed.

Lemma field_after_no_interior (r : F) (field : list F) (n : nat) :
  field_after r 0 field n = field.
Proof. induction n as [|n IH]; [done|]. by rewrite field_after_S, IH. Qed.

(** X4. On a grid of two points there is no interior point, and the
    impulse sits on the last one: the field is [0.0, 1.0] from the
    constructor on, and [solve] records it unchanged in every snapshot. The
    right end of the grid holds 1.0, not 0.0. *)
Theorem two_point_grid_is_frozen (cfg : gmap string (value F))
    (s : HeatEquationSolver F) h out s' :
  cfg !! "num_points_x" = Some (VInt 2) →
  init cfg = Ok s →
  solve s = Ok (h, out, s') →
  u s = [f0; f1] ∧ Forall (λ row, row = [f0; f1]) h ∧ u s' = [f0; f1].
Proof.
  intros Hnx Hs Hsolve.
  pose proof (init_length _ _ _ Hs Hnx) as Hlen.
  pose proof (init_config _ _ Hs) as Hc.
  assert (u s = [f0; f1]) as Hu.
  { apply init_inv in Hs
      as (? & nx & ? & ? & _ & Hnx' & _ & _ & _ & _ & _ & _ & ->).
    rewrite Hnx in Hnx'. by injection Hnx' as <-. }
  apply solve_inv in Hsolve
    as (alpha & nxv & nt & r & _ & Hnx' & _ & _ & _ & Hloop).
  rewrite Hc, Hnx in Hnx'. injection Hnx' as <-.
  rewrite time_loop_ok in Hloop by done. injection Hloop as <- <-.
  change (Z.to_nat (2 - 2)) with 0%nat. cbn [set_u u].
  rewrite field_after_no_interior. split; [done|]. split; [|done].
  apply Forall_forall. intros row [t Hrow]%list_elem_of_lookup.
  apply history_lookup_inv in Hrow as [_ ->].
  by rewrite field_after_no_interior.
Qed.

Lemma normalize_index_empty (i : Z) : normalize_index 0 i = None.
Proof.
  destruct (normalize_index 0 i) as [j|] eqn:Hj; [|done].
  apply normalize_index_Some in Hj. lia.
Qed.

(** X5. A grid size that is zero or negative is refused by the constructor
    with an IndexError, raised when the impulse is written into the empty
    field, once dx and dt have been computed. *)
Theorem constructor_refuses_empty_grid (cfg : gmap string (value F))
    (len total_time nt : value F) (nx : Z) (dx' dt' : F) :
  cfg !! "length" = Some len →
  cfg !! "num_points_x" = Some (VInt nx) →
  cfg !! "total_time" = Some total_time →
  cfg !! "num_points_t" = Some nt →
  nx ≤ 0 →
  py_truediv len (VInt (nx - 1)) = Ok dx' →
  py_truediv total_time nt = Ok dt' →
  init cfg = Raise IndexError.
Proof.
  intros Hlen Hnx Htt Hnt Hle Hdx Hdt.
  unfold init, initialize_grid, dict_getitem. cbn [config].
  rewrite Hlen, Hnx, Htt, Hnt. cbn [mbind result_bind py_sub1].
  rewrite Hdx, Hdt. cbn [mbind result_bind list_repeat as_index].
  replace (Z.to_nat nx) with 0%nat by lia.
  unfold list_setitem. cbn [replicate length].
  by rewrite normalize_index_empty.
Qed.

(** X6. The grid sizes must be ints. A solver is only ever constructed
    with an int num_points_x of at least 1. A num_points_t that is not an
    int (10.0, say) passes the constructor, but [solve] never returns on
    such a solver: once r is computed, it raises TypeError. *)
Theorem grid_sizes_must_be_ints (cfg : gmap string (value F))
    (s : HeatEquationSolver F) :
  init cfg = Ok s →
  (∃ nx, cfg !! "num_points_x" = Some (VInt nx) ∧ 1 ≤ nx
         ∧ length (u s) = Z.to_nat nx) ∧
  (∀ h out s', solve s = Ok (h, out, s') →
     ∃ nt, cfg !! "num_points_t" = Some (VInt nt)) ∧
  (∀ nt alpha r,
     cfg !! "num_points_t" = Some nt → is_int nt = false →
     cfg !! "alpha" = Some alpha →
     diffusion_number alpha (dt s) (dx s) = Ok r →
     solve s = Raise TypeError).
Proof.
  intros Hs. pose proof (init_config _ _ Hs) as Hc.
  split; [|split].
  - pose proof Hs as (? & nx & ? & ? & _ & Hnx & _ & _ & Hnx1 & _)%init_inv.
    exists nx. split; [done|]. split; [done|]. by eapply init_length.
  - intros h out s' (? & ? & nt & ? & _ & _ & Hnt & _)%solve_inv.
    rewrite Hc in Hnt. by exists nt.
  - intros nt alpha r Hnt Hint Ha Hr.
    pose proof Hs as (? & nx & ? & ? & _ & Hnx & _)%init_inv.
    unfold solve, dict_getitem. rewrite Hc, Ha, Hnx, Hnt. simpl.
    rewrite Hr. simpl. by destruct nt.
Qed.

End Edges_of_the_grid.

(** ** With doubles *)

Lemma binary64_float_of_zero : float_of_int (F := float) 0 = Ok 0%float.
Proof. vm_compute. reflexivity. Qed.

Lemma binary64_truediv_by_zero (a : value float) :
  is_number a = true → py_truediv a (VInt 0) = Raise ZeroDivisionError.
Proof.
  destruct a as [m|x|]; [done| |done]. intros _.
  cbn [py_truediv as_float mbind result_bind].
  rewrite binary64_float_of_zero. done.
Qed.

(** X7. A grid of one point, or a step count of zero, is refused by the
    constructor with ZeroDivisionError: dx = length / (num_points_x - 1)
    divides by zero when num_points_x is 1, and
    dt = total_time / num_points_t does when num_points_t is 0 and dx was
    computed. *)
Theorem constructor_division_by_zero (cfg : gmap string (value float))
    (len nx total_time nt : value float) :
  cfg !! "length" = Some len →
  cfg !! "num_points_x" = Some nx →
  cfg !! "total_time" = Some total_time →
  cfg !! "num_points_t" = Some nt →
  is_number len = true →
  nx = VInt 1
  ∨ (is_number total_time = true ∧ nt = VInt 0 ∧
     ∃ nx1 dx', py_sub1 nx = Ok nx1 ∧ py_truediv len nx1 = Ok dx') →
  init cfg = Raise ZeroDivisionError.
Proof.
  intros Hlen Hnx Htt Hnt Hnum Hcase.
  unfold init, initialize_grid, dict_getitem. cbn [config].
  rewrite Hlen, Hnx, Htt, Hnt. cbn [mbind result_bind].
  destruct Hcase as [->|(Hnum' & -> & nx1 & dx' & -> & Hdx)].
  - cbn [py_sub1 mbind result_bind]. change (1 - 1) with 0.
    by rewrite binary64_truediv_by_zero.
  - cbn [mbind result_bind]. rewrite Hdx. cbn [mbind result_bind].
    by rewrite binary64_truediv_by_zero.
Qed.

(** X8. On a solver built from a valid configuration, [solve] raises
    nothing but the two arithmetic exceptions of computing r:
    ZeroDivisionError, exactly when dx ** 2 is 0.0, and OverflowError. It
    raises no KeyError, TypeError or IndexError. *)
Theorem solve_raises_only_arithmetic_errors (cfg : gmap string (value float))
    (s : HeatEquationSolver float) (e : exn) :
  valid_config cfg = true →
  init cfg = Ok s →
  solve s = Raise e →
  (e = ZeroDivisionError ∧ ∃ d, float_pow2 (dx s) = Ok d ∧ feq0 d = true)
  ∨ e = OverflowError.
Proof.
  intros Hv Hs Hsolve.
  apply valid_config_inv in Hv
    as (len & nx & tt & nt & alpha & _ & Hnx & _ & Hnt & Ha & _ & _ & _ & _ & Hapos).
  rewrite (solve_constructed cfg s alpha nx nt) in Hsolve by done.
  destruct (diffusion_number alpha (dt s) (dx s)) as [r|e'] eqn:Hr; [done|].
  injection Hsolve as ->. revert Hr. unfold diffusion_number.
  assert (is_number alpha = true) as Hnum by (by destruct alpha).
  destruct (py_mul_float alpha (dt s)) as [a|e'] eqn:Hmul.
  - cbn [mbind result_bind].
    destruct (float_pow2 (dx s)) as [d|e'] eqn:Hpow.
    + cbn [mbind result_bind]. unfold float_truediv.
      destruct (feq0 d) eqn:Hd; [|done]. intros [= <-]. left. eauto.
    + cbn [mbind result_bind]. intros [= <-]. right.
      revert Hpow. cbn [float_pow2 binary64]. unfold binary64_pow2, checked.
      repeat case_match; congruence.
  - cbn [mbind result_bind]. intros [= <-]. right.
    revert Hmul. destruct alpha as [n|y|]; [| |done]; cbn [py_mul_float]; [|done].
    cbn [float_of_int binary64]. unfold checked.
    case_match; cbn [mbind result_bind]; congruence.
Qed.

(** ** Bounds in exact arithmetic *)

Section Exact_bounds.

Local Open Scope Q_scope.

Lemma stencil_between (r lo hi : Q) (field : list Q) (k : nat) :
  0 <= r → r <= 1 # 2 →
  (∀ x, x ∈ field → lo <= x ∧ x <= hi) →
  (1 ≤ k)%nat → (k + 1 < length field)%nat →
  lo <= stencil r field k ∧ stencil r field k <= hi.
Proof.
  intros Hr0 Hr Hin Hk1 Hk2.
  assert (∀ j, (j < length field)%nat
               → lo <= entry field j ∧ entry field j <= hi) as Hentry.
  { intros j Hj. apply Hin. eapply list_elem_of_lookup_2.
    by apply entry_lookup. }
  destruct (Hentry k ltac:(lia)) as [Ha1 Ha2].
  destruct (Hentry (k + 1)%nat ltac:(lia)) as [Hb1 Hb2].
  destruct (Hentry (k - 1)%nat ltac:(lia)) as [Hc1 Hc2].
  unfold stencil. simpl.
  generalize dependent (entry field k). intros a Ha1 Ha2.
  generalize dependent (entry field (k + 1)). intros b Hb1 Hb2.
  generalize dependent (entry field (k - 1)). intros c Hc1 Hc2.
  split; nra.
Qed.

Lemma field_after_between (r lo hi : Q) (m : nat) (field : list Q) (n : nat) :
  0 <= r → r <= 1 # 2 → (m = 0 ∨ m + 1 < length field)%nat →
  (∀ x, x ∈ field → lo <= x ∧ x <= hi) →
  ∀ x, x ∈ field_after r m field n → lo <= x ∧ x <= hi.
Proof.
  intros Hr0 Hr Hm Hin. induction n as [|n IH]; [done|].
  rewrite field_after_S. intros x [k Hk]%list_elem_of_lookup.
  destruct (decide (1 ≤ k ≤ m)%nat) as [Hint|Hout].
  - rewrite relax_interior in Hk by (rewrite ?length_field_after; lia).
    injection Hk as <-.
    apply stencil_between; try done; rewrite ?length_field_after; lia.
  - rewrite relax_outside in Hk by lia.
    apply IH. by eapply list_elem_of_lookup_2.
Qed.


End Exact_bounds.

(** ** [save_results] *)

Section Saving_facts.

Context {F : Type} `{Arith F}.

Lemma length_range (lo hi : Z) : length (range lo hi) = Z.to_nat (hi - lo).
Proof. unfold range. by rewrite length_map, length_seq. Qed.

Lemma NoDup_range (lo hi : Z) : NoDup (range lo hi).
Proof.
  unfold range. apply NoDup_fmap_2_strong; [|apply NoDup_seq].
  intros j k _ _ Hjk. lia.
Qed.

Lemma length_header (nx : Z) : length (header (F := F) nx) = Z.to_nat nx.
Proof.
  unfold header. rewrite length_map, length_range. f_equal. lia.
Qed.

(** The column names are pairwise distinct. *)
Lemma NoDup_header (nx : Z) : NoDup (header (F := F) nx).
Proof.
  unfold header. apply NoDup_fmap_2_strong; [|apply NoDup_range].
  intros i j _ _ [= Hij]. by apply (inj pretty).
Qed.

Lemma as_index_columns (s : HeatEquationSolver F) (nx : Z) :
  config s !! "num_points_x" = Some (VInt nx) →
  (v ← dict_getitem (config s) "num_points_x"; as_index v) = Ok nx.
Proof. intros Hnx. unfold dict_getitem. by rewrite Hnx. Qed.



End Saving_facts.

(** ** The further theorems on concrete configurations *)

Lemma solve_preserves_length_witness :
  length (u test_solver_after) = length (u test_solver) ∧
  Forall (λ row : list float, length row = length (u test_solver)) test_history.
Proof.
  refine (solve_preserves_length test_solver test_history [] test_solver_after _).
  vm_compute. reflexivity.
Defined.

Lemma no_step_without_positive_count_witness :
  (solved (constructed (test_config_with "num_points_t" (VInt (-3))))).1.1
  = [u (constructed (test_config_with "num_points_t" (VInt (-3))))] ∧
  (solved (constructed (test_config_with "num_points_t" (VInt (-3))))).2
  = constructed (test_config_with "num_points_t" (VInt (-3))).
Proof.
  refine (no_step_without_positive_count _ (-3) _ [] _ _ _ _);
    [vm_compute; reflexivity | lia | vm_compute; reflexivity].
Defined.

Lemma two_solves_are_one_long_run_witness :
  ∃ r, diffusion_number (VFloat 0.01%float) (dt test_solver) (dx test_solver) = Ok r ∧
    time_loop r (VInt 10) (Z.to_nat 10 + Z.to_nat 10) test_solver [u test_solver]
    = Ok (test_history ++ drop 1 (solved test_solver_after).1.1,
          (solved test_solver_after).2) ∧
    @nil (event float) = [].
Proof.
  refine (two_solves_are_one_long_run test_config test_solver (VFloat 0.01%float)
            10 10 test_history [] test_solver_after
            (solved test_solver_after).1.1 [] (solved test_solver_after).2
            _ _ _ _ _ _); vm_compute; reflexivity.
Defined.

Lemma two_point_grid_is_frozen_witness :
  u (constructed (test_config_with "num_points_x" (VInt 2))) = [0%float; 1%float] ∧
  Forall (λ row, row = [0%float; 1%float])
    (solved (constructed (test_config_with "num_points_x" (VInt 2)))).1.1 ∧
  u (solved (constructed (test_config_with "num_points_x" (VInt 2)))).2
  = [0%float; 1%float].
Proof.
  refine (two_point_grid_is_frozen (test_config_with "num_points_x" (VInt 2))
            _ _ [] _ _ _ _); vm_compute; reflexivity.
Defined.

Lemma constructor_refuses_empty_grid_witness :
  init (test_config_with "num_points_x" (VInt 0)) = Raise IndexError.
Proof.
  refine (constructor_refuses_empty_grid _ (VFloat 1%float) (VFloat 0.01%float)
            (VInt 10) 0 (-1)%float (0.01 / 10)%float _ _ _ _ _ _ _);
    try (vm_compute; reflexivity).
  lia.
Defined.

Lemma grid_sizes_must_be_ints_witness :
  (∃ s, init (test_config_with "num_points_t" (VFloat 10%float)) = Ok s) ∧
  solve (constructed (test_config_with "num_points_t" (VFloat 10%float)))
  = Raise TypeError.
Proof.
  split; [eexists; vm_compute; reflexivity|].
  refine (proj2 (proj2 (grid_sizes_must_be_ints
                          (test_config_with "num_points_t" (VFloat 10%float))
                          _ _))
            (VFloat 10%float) (VFloat 0.01%float)
            (0.01 * (0.01 / 10) / (1 / 9 * (1 / 9)))%float _ _ _ _);
    vm_compute; reflexivity.
Defined.

Lemma constructor_division_by_zero_witness :
  init (test_config_with "num_points_x" (VInt 1)) = Raise ZeroDivisionError ∧
  init (test_config_with "num_points_t" (VInt 0)) = Raise ZeroDivisionError.
Proof.
  split.
  - refine (constructor_division_by_zero _ (VFloat 1%float) (VInt 1)
              (VFloat 0.01%float) (VInt 10) _ _ _ _ _ _);
      try (vm_compute; reflexivity).
    by left.
  - refine (constructor_division_by_zero _ (VFloat 1%float) (VInt 10)
              (VFloat 0.01%float) (VInt 0) _ _ _ _ _ _);
      try (vm_compute; reflexivity).
    right. split; [reflexivity|]. split; [reflexivity|].
    exists (VInt 9), (1 / 9)%float. split; vm_compute; reflexivity.
Defined.

Lemma solve_raises_only_arithmetic_errors_witness :
  (OverflowError = ZeroDivisionError
   ∧ ∃ d, float_pow2 (dx (constructed overflow_config)) = Ok d ∧ feq0 d = true)
  ∨ OverflowError = OverflowError.
Proof.
  refine (solve_raises_only_arithmetic_errors overflow_config
            (constructed overflow_config) OverflowError _ _ _);
    vm_compute; reflexivity.
Defined.




(** ** The script *)

Section Script_facts.

Context {F : Type} `{Arith F}.

(** The constructor refuses a path that does not exist before it reads
    anything. *)
Lemma new_solver_file_not_found (cf : config_files F) (config_path : string) :
  path_exists cf config_path = false →
  new_solver cf config_path = inr FileNotFoundError.
Proof. intros Hno. unfold new_solver, load_config. by rewrite Hno. Qed.

(** [save_results] cannot leave an emptied file behind on a solver the
    constructor built: an exception it does not catch is raised by [open],
    before anything is written. *)
Lemma save_results_uncaught_unchanged
    (s : HeatEquationSolver F) (results : list (list F))
    (fs fs' : file_system F) (outcome : save_outcome) :
  (∃ nx, config s !! "num_points_x" = Some (VInt nx)) →
  save_results s results fs = (fs', outcome) →
  outcome ≠ Saved → fs' = fs.
Proof.
  intros [nx Hnx]. unfold save_results.
  rewrite (as_index_columns _ nx) by done.
  repeat case_match; intros [= <- <-]; done.
Qed.


End Script_facts.

